(** * httpclient: the interceptor pipeline of [Client], embedded in Rocq

    A shallow embedding of [client.go] and [interceptors.go].

    - A [*http.Request] or [*http.Response] is modelled by the value it
      points to, [None] being the nil pointer; an interceptor that updates
      its argument in place and returns it is the function returning the
      updated value.  Requests carry an allocated header map and a non-nil
      URL, as [http.NewRequestWithContext] builds them.
    - Everything an interceptor, a body or the transport can read or change
      outside its arguments (the network, decode targets, counters captured
      by closures) is the world [W], threaded through every call.
    - A call either returns or panics ([outcome]); dereferencing nil panics.
    - [Do] additionally records, in program order, each call it makes to an
      interceptor, to the transport and to [Close] ([Event]); interceptors
      have no access to that record.
    - [net/http], [net/url] and [encoding/json] are outside the repository:
      what the package uses of them are the fields of the classes
      [Platform] and [NetHTTP].
    - Names are those of the source; the field [c] of [Client] is
      [client_c], and the fields [Header] and [Body] are [ReqHeader],
      [ReqBody] on a request and [ResHeader], [ResBody] on a response. *)

From Stdlib Require Import ZArith Ascii String List DecimalString.
From stdpp Require Import list gmap strings.

Local Open Scope Z_scope.

(** ** Go values *)

(** [[]byte] *)
Definition bytes := list Byte.byte.

(** A non-nil [error]; [Error] is its message.  The interface type [error]
    is [option GoError], nil being [None]. *)
Record GoError := errorString { Error : string }.
Abbreviation error := (option GoError).

(** A possibly nil pointer or interface value. *)
Abbreviation ptr A := (option A) (only parsing).

(** How a call ends. *)
Inductive outcome (A : Type) :=
| Returned (a : A)
| Panicked.
Arguments Returned {A} a.
Arguments Panicked {A}.

(** [%d] of [fmt], for an [int]. *)
Definition fmt_d (n : Z) : string := NilZero.string_of_int (Z.to_int n).

(** [fmt.Errorf(format, n)] for a format that is [prefix] followed by [%d]. *)
Definition fmt_Errorf_d (prefix : string) (n : Z) : GoError :=
  errorString (prefix +:+ fmt_d n).

(** [fmt.Errorf(format, s)] for a format that is [prefix] followed by [%s]. *)
Definition fmt_Errorf_s (prefix : string) (s : string) : GoError :=
  errorString (prefix +:+ s).

(** [http.Header].  The keys the interceptors below pass ("Content-Type",
    "Accept") are literals in canonical MIME form, on which the key
    canonicalisation of [net/http] is the identity; [WithRequestHeader],
    whose key is the caller's, canonicalises it before calling this. *)
Definition Header_Set (h : gmap string (list string)) (key value : string)
  : gmap string (list string) :=
  <[key := [value]]> h.

Definition Header_Add (h : gmap string (list string)) (key value : string)
  : gmap string (list string) :=
  <[key := default [] (h !! key) ++ [value]]> h.

Definition Header_Get (h : gmap string (list string)) (key : string) : string :=
  match h !! key with
  | Some (v :: _) => v
  | _ => ""%string
  end.

(** ** What the package builds on

    The world, the types of [net/url], [encoding/json] and [context] the
    package uses, and their functions: the methods [IsAbs] and [String] of
    a URL, [url.Parse], [json.Marshal] and [json.Unmarshal]. *)
Class Platform := {
  W : Type;
  url_URL : Type;
  any : Type;
  context_Context : Type;
  URL_IsAbs : url_URL -> bool;
  URL_String : url_URL -> string;
  url_Parse : string -> url_URL + GoError;
  json_Marshal : any -> W -> W * (bytes + GoError);
  json_Unmarshal : bytes -> any -> W -> W * error
}.

Section Pipeline.

Context `{Platform}.

(** ** Readers and bodies *)

(** An [io.Reader] value: what [io.ReadAll] gives on it, and its [Close]
    method when its dynamic type has one (when it is an [io.ReadCloser]). *)
Record Reader := {
  ReadAll : W -> W * (bytes * error);
  asReadCloser : option (W -> W * error)
}.

(** An [io.ReadCloser] value. *)
Record ReadCloser := {
  rcReadAll : W -> W * (bytes * error);
  Close : W -> W * error
}.

(** [bytes.NewReader(b)]: a [*bytes.Reader], which has no [Close]. *)
Definition bytes_NewReader (b : bytes) : Reader :=
  {| ReadAll := fun w => (w, (b, None)); asReadCloser := None |}.

(** [&readCloser{r}]: [Close] returns nil, [Read] is [r]'s. *)
Definition readCloser (r : Reader) : ReadCloser :=
  {| rcReadAll := ReadAll r; Close := fun w => (w, None) |}.

(** ** Requests and responses *)

Record Request := {
  Method : string;
  URL : url_URL;
  ReqHeader : gmap string (list string);
  ReqBody : ptr ReadCloser;
  ContentLength : Z
}.

Record Response := {
  StatusCode : Z;
  ResHeader : gmap string (list string);
  ResBody : ptr ReadCloser
}.

(** ** Interceptors *)

Record RequestInterceptor := RequestInterceptorFunc {
  InterceptRequest : ptr Request -> W -> W * outcome (ptr Request * error)
}.

Record ResponseInterceptor := ResponseInterceptorFunc {
  InterceptResponse : ptr Response -> W -> W * outcome (ptr Response * error)
}.

(** [*http.Client], by what its [Do] method does. *)
Record http_Client := {
  http_Client_Do : ptr Request -> W -> W * outcome (ptr Response * error)
}.

(** What the package uses of [net/http] besides its types:
    [new(http.Client)], and [http.NewRequestWithContext(ctx, method, url, nil)],
    which gives a request or an error. *)
Class NetHTTP := {
  new_http_Client : http_Client;
  http_NewRequestWithContext : context_Context -> string -> string -> Request + GoError
}.

Context `{NetHTTP}.

(** ** Options *)

(** The methods of [*forJSON]. *)
Definition forJSON_InterceptRequest (r : ptr Request) (w : W)
  : W * outcome (ptr Request * error) :=
  match r with
  | None => (w, Panicked)
  | Some r =>
      (w, Returned (Some {| Method := Method r;
                            URL := URL r;
                            ReqHeader := Header_Add (ReqHeader r) "Accept" "application/json";
                            ReqBody := ReqBody r;
                            ContentLength := ContentLength r |}, None))
  end.

Definition forJSON_InterceptResponse (value : any) (r : ptr Response) (w : W)
  : W * outcome (ptr Response * error) :=
  match r with
  | None => (w, Panicked)
  | Some r =>
      let ct := Header_Get (ResHeader r) "Content-Type" in
      if negb (String.prefix "application/json" ct) then
        (w, Returned (Some r, Some (fmt_Errorf_s "expected JSON response but got " ct)))
      else
        match ResBody r with
        | None => (w, Panicked)
        | Some body =>
            let '(w1, (d, err)) := rcReadAll body w in
            match err with
            | Some e => (w1, Returned (Some r, Some e))
            | None =>
                let '(w2, err) := json_Unmarshal d value w1 in
                (w2, Returned (Some r, err))
            end
        end
  end.

(** An option value, by its dynamic type.  [otherOption] is a value of any
    further type, given by which of the two interceptor interfaces its
    method set satisfies. *)
Inductive OptionValue :=
| HTTPClientOption (f : http_Client -> http_Client)
| RequestInterceptorOption (i : RequestInterceptor)
| ResponseInterceptorOption (i : ResponseInterceptor)
| forJSON (value : any)
| otherOption (req : option RequestInterceptor) (res : option ResponseInterceptor).

(** The type assertion [opt.(RequestInterceptor)]. *)
Definition asRequestInterceptor (opt : OptionValue) : option RequestInterceptor :=
  match opt with
  | HTTPClientOption _ => None
  | RequestInterceptorOption i => Some i
  | ResponseInterceptorOption _ => None
  | forJSON _ => Some (RequestInterceptorFunc forJSON_InterceptRequest)
  | otherOption req _ => req
  end.

(** The type assertion [opt.(ResponseInterceptor)]. *)
Definition asResponseInterceptor (opt : OptionValue) : option ResponseInterceptor :=
  match opt with
  | HTTPClientOption _ => None
  | RequestInterceptorOption _ => None
  | ResponseInterceptorOption i => Some i
  | forJSON value => Some (ResponseInterceptorFunc (forJSON_InterceptResponse value))
  | otherOption _ res => res
  end.

Definition WithRequestInterceptor (r : RequestInterceptor) : OptionValue :=
  RequestInterceptorOption r.

Definition WithRequestInterceptorFunc
  (f : ptr Request -> W -> W * outcome (ptr Request * error)) : OptionValue :=
  RequestInterceptorOption (RequestInterceptorFunc f).

Definition WithResponseInterceptor (r : ResponseInterceptor) : OptionValue :=
  ResponseInterceptorOption r.

Definition WithResponseInterceptorFunc
  (f : ptr Response -> W -> W * outcome (ptr Response * error)) : OptionValue :=
  ResponseInterceptorOption (ResponseInterceptorFunc f).

Definition ForJSON (value : any) : OptionValue := forJSON value.

(** ** The client *)

Record Client := {
  client_c : http_Client;
  reqInterceptors : list RequestInterceptor;
  resInterceptors : list ResponseInterceptor
}.

(** The loop of [New]: the type switch takes the first case that matches
    the option's dynamic type, and no other. *)
Fixpoint New_range (opts : list OptionValue) (c : Client) : outcome Client :=
  match opts with
  | [] => Returned c
  | opt :: opts' =>
      match opt with
      | HTTPClientOption o =>
          New_range opts' {| client_c := o (client_c c);
                             reqInterceptors := reqInterceptors c;
                             resInterceptors := resInterceptors c |}
      | _ =>
          match asRequestInterceptor opt with
          | Some o =>
              New_range opts' {| client_c := client_c c;
                                 reqInterceptors := reqInterceptors c ++ [o];
                                 resInterceptors := resInterceptors c |}
          | None =>
              match asResponseInterceptor opt with
              | Some o =>
                  New_range opts' {| client_c := client_c c;
                                     reqInterceptors := reqInterceptors c;
                                     resInterceptors := resInterceptors c ++ [o] |}
              | None => Panicked
              end
          end
      end
  end.

Definition New (opts : list OptionValue) : outcome Client :=
  New_range opts {| client_c := new_http_Client;
                    reqInterceptors := [];
                    resInterceptors := [] |}.

(** ** What [Do] is seen to call *)

Inductive Event :=
| EvInterceptRequest (i : RequestInterceptor) (arg : ptr Request)
    (ret : outcome (ptr Request * error))
| EvTransport (arg : ptr Request) (ret : outcome (ptr Response * error))
| EvInterceptResponse (i : ResponseInterceptor) (arg : ptr Response)
    (ret : outcome (ptr Response * error))
| EvClose (body : ReadCloser).

(** ** Statements of [Do]

    A statement runs in a world, leaves a world and the calls it made, and
    either falls through with a value, executes a [return] of [Do], or
    panics. *)

Inductive step (A : Type) :=
| Continue (a : A)
| Return (res : ptr Response) (err : error)
| Panic.
Arguments Continue {A} a.
Arguments Return {A} res err.
Arguments Panic {A}.

Definition stmt (A : Type) := W -> W * list Event * step A.

Definition pass {A} (a : A) : stmt A := fun w => (w, [], Continue a).

Definition seq {A B} (m : stmt A) (k : A -> stmt B) : stmt B :=
  fun w =>
    let '(w1, t1, s) := m w in
    match s with
    | Continue a => let '(w2, t2, s2) := k a w1 in (w2, t1 ++ t2, s2)
    | Return res err => (w1, t1, Return res err)
    | Panic => (w1, t1, Panic)
    end.

Definition return_ {A} (res : ptr Response) (err : error) : stmt A :=
  fun w => (w, [], Return res err).

Definition panic {A} : stmt A := fun w => (w, [], Panic).

(** A call, recorded with its argument and how it ended. *)
Definition call {A B} (f : A -> W -> W * outcome B) (ev : A -> outcome B -> Event)
  (a : A) : stmt B :=
  fun w =>
    let '(w1, r) := f a w in
    match r with
    | Returned b => (w1, [ev a r], Continue b)
    | Panicked => (w1, [ev a r], Panic)
    end.

(** [defer body.Close()] followed by the rest of the function: [Close] runs
    when the rest has returned or panicked; what it returns is dropped. *)
Definition defer_Close {A} (body : ReadCloser) (rest : stmt A) : stmt A :=
  fun w =>
    let '(w1, t, s) := rest w in
    let '(w2, _) := Close body w1 in
    (w2, t ++ [EvClose body], s).

Notation "'let!' x ':=' m 'in' k" := (seq m (fun x => k))
  (at level 10, x name, m at level 100, k at level 200).
Notation "'let!' ' p ':=' m 'in' k" := (seq m (fun x => match x with p => k end))
  (at level 10, p pattern, m at level 100, k at level 200).

(** ** [Do] *)

(** [for _, i := range c.reqInterceptors { ... }] *)
Fixpoint range_reqInterceptors (ics : list RequestInterceptor) (req : ptr Request)
  : stmt (ptr Request) :=
  match ics with
  | [] => pass req
  | i :: ics' =>
      let! '(req, err) := call (InterceptRequest i) (EvInterceptRequest i) req in
      match err with
      | Some _ => return_ None err
      | None => range_reqInterceptors ics' req
      end
  end.

(** [for _, opt := range opts { if i, ok := opt.(RequestInterceptor); ok { ... } }] *)
Fixpoint range_opts_RequestInterceptor (opts : list OptionValue) (req : ptr Request)
  : stmt (ptr Request) :=
  match opts with
  | [] => pass req
  | opt :: opts' =>
      match asRequestInterceptor opt with
      | Some i =>
          let! '(req, err) := call (InterceptRequest i) (EvInterceptRequest i) req in
          match err with
          | Some _ => return_ None err
          | None => range_opts_RequestInterceptor opts' req
          end
      | None => range_opts_RequestInterceptor opts' req
      end
  end.

(** [for _, opt := range opts { if i, ok := opt.(ResponseInterceptor); ok { ... } }] *)
Fixpoint range_opts_ResponseInterceptor (opts : list OptionValue) (res : ptr Response)
  : stmt (ptr Response) :=
  match opts with
  | [] => pass res
  | opt :: opts' =>
      match asResponseInterceptor opt with
      | Some i =>
          let! '(res, err) := call (InterceptResponse i) (EvInterceptResponse i) res in
          match err with
          | Some _ => return_ res err
          | None => range_opts_ResponseInterceptor opts' res
          end
      | None => range_opts_ResponseInterceptor opts' res
      end
  end.

(** [for _, i := range c.resInterceptors { ... }] *)
Fixpoint range_resInterceptors (ics : list ResponseInterceptor) (res : ptr Response)
  : stmt (ptr Response) :=
  match ics with
  | [] => pass res
  | i :: ics' =>
      let! '(res, err) := call (InterceptResponse i) (EvInterceptResponse i) res in
      match err with
      | Some _ => return_ res err
      | None => range_resInterceptors ics' res
      end
  end.

(** The body of [Do]; it ends in a [return] on every path. *)
Definition Do_body (c : Client) (req : ptr Request) (opts : list OptionValue)
  : stmt Empty_set :=
  let! req := range_reqInterceptors (reqInterceptors c) req in
  let! req := range_opts_RequestInterceptor opts req in
  let! '(res, err) := call (http_Client_Do (client_c c)) EvTransport req in
  match err with
  | Some _ => return_ res err
  | None =>
      (* defer res.Body.Close(): res.Body is evaluated here *)
      match res with
      | None => panic
      | Some r =>
          match ResBody r with
          | None => panic
          | Some body =>
              defer_Close body (
                let! res := range_opts_ResponseInterceptor opts res in
                let! res := range_resInterceptors (resInterceptors c) res in
                return_ res None)
          end
      end
  end.

(** What a call of [Do] gives: the world it leaves, the calls it made, and
    the pair it returned. *)
Definition result : Type := W * list Event * outcome (ptr Response * error).

Definition run (body : stmt Empty_set) (w : W) : result :=
  let '(w', t, s) := body w in
  (w', t, match s with
          | Continue x => match x with end
          | Return res err => Returned (res, err)
          | Panic => Panicked
          end).

Definition Do (c : Client) (req : ptr Request) (opts : list OptionValue) (w : W)
  : result :=
  run (Do_body c req opts) w.

(** ** [Execute], [Get], [Post] *)

Definition Execute (c : Client) (ctx : context_Context) (method url : string)
  (opts : list OptionValue) (w : W) : result :=
  match http_NewRequestWithContext ctx method url with
  | inr err => (w, [], Returned (None, Some err))
  | inl req => Do c (Some req) opts w
  end.

Definition Get (c : Client) (ctx : context_Context) (url : string)
  (opts : list OptionValue) (w : W) : result :=
  Execute c ctx "GET" url opts w.

Definition Post (c : Client) (ctx : context_Context) (url : string)
  (opts : list OptionValue) (w : W) : result :=
  Execute c ctx "POST" url opts w.

(** ** The interceptors of the package *)

(** [withBody(r, contentType, length)]. *)
Definition withBody (r : Reader) (contentType : string) (length : Z)
  : RequestInterceptor :=
  RequestInterceptorFunc (fun req w =>
    match req with
    | None => (w, Panicked)
    | Some rq =>
        (* if req.Body != nil { if err := req.Body.Close(); err != nil { return req, err } } *)
        let '(w1, err) :=
          match ReqBody rq with
          | Some old => Close old w
          | None => (w, None)
          end in
        match err with
        | Some e => (w1, Returned (req, Some e))
        | None =>
            let body :=
              match asReadCloser r with
              | Some close => {| rcReadAll := ReadAll r; Close := close |}
              | None => readCloser r
              end in
            (w1, Returned (Some {| Method := Method rq;
                                   URL := URL rq;
                                   ReqHeader := Header_Set (ReqHeader rq) "Content-Type" contentType;
                                   ReqBody := Some body;
                                   ContentLength := length |}, None))
        end
    end).

Definition WithBody (r : Reader) (contentType : string) (length : Z) : OptionValue :=
  WithRequestInterceptorFunc (InterceptRequest (withBody r contentType length)).

Definition WithJSON (value : any) : OptionValue :=
  WithRequestInterceptorFunc (fun r w =>
    let '(w1, m) := json_Marshal value w in
    match m with
    | inr err => (w1, Returned (r, Some err))
    | inl b =>
        InterceptRequest
          (withBody (bytes_NewReader b) "application/json" (Z.of_nat (length b))) r w1
    end).

(** The loop of [ExpectedStatusCode]'s interceptor and the statement after it. *)
Fixpoint ExpectedStatusCode_range (expectedStatusCodes : list Z) (r : Response)
  : ptr Response * error :=
  match expectedStatusCodes with
  | [] => (Some r, Some (fmt_Errorf_d "unexpected status code: " (StatusCode r)))
  | statusCode :: rest =>
      if StatusCode r =? statusCode then (Some r, None)
      else ExpectedStatusCode_range rest r
  end.

Definition ExpectedStatusCode (expectedStatusCodes : list Z) : OptionValue :=
  WithResponseInterceptorFunc (fun r w =>
    match r with
    | None => (w, Panicked)   (* r.StatusCode, in the loop or after it *)
    | Some r => (w, Returned (ExpectedStatusCode_range expectedStatusCodes r))
    end).

Definition WithURLPrefix (prefix : string) : OptionValue :=
  WithRequestInterceptorFunc (fun r w =>
    match r with
    | None => (w, Panicked)
    | Some rq =>
        if negb (URL_IsAbs (URL rq)) then
          match url_Parse (prefix +:+ URL_String (URL rq)) with
          | inr err => (w, Returned (r, Some err))
          | inl u =>
              (w, Returned (Some {| Method := Method rq;
                                    URL := u;
                                    ReqHeader := ReqHeader rq;
                                    ReqBody := ReqBody rq;
                                    ContentLength := ContentLength rq |}, None))
          end
        else (w, Returned (r, None))
    end).

(** ** Reading the record of a call of [Do] *)

(** The callee of a recorded call. *)
Inductive Call :=
| CallRequest (i : RequestInterceptor)
| CallTransport
| CallResponse (i : ResponseInterceptor).

Definition call_of (e : Event) : option Call :=
  match e with
  | EvInterceptRequest i _ _ => Some (CallRequest i)
  | EvTransport _ _ => Some CallTransport
  | EvInterceptResponse i _ _ => Some (CallResponse i)
  | EvClose _ => None
  end.

(** The callees of a record, in order; [Close] is not one of them. *)
Definition calls (t : list Event) : list Call := omap call_of t.

(** The bodies closed in a record, in order. *)
Definition closes (t : list Event) : list ReadCloser :=
  omap (fun e => match e with EvClose b => Some b | _ => None end) t.

(** The members of [opts] with the request capability, and those with the
    response capability, in the order of [opts]. *)
Definition requestCapable (opts : list OptionValue) : list RequestInterceptor :=
  omap asRequestInterceptor opts.

Definition responseCapable (opts : list OptionValue) : list ResponseInterceptor :=
  omap asResponseInterceptor opts.

(** The full ordered sequence of a call: client-level request interceptors,
    call-level ones, the transport, call-level response interceptors,
    client-level ones. *)
Definition schedule (c : Client) (opts : list OptionValue) : list Call :=
  map CallRequest (reqInterceptors c ++ requestCapable opts)
  ++ [CallTransport]
  ++ map CallResponse (responseCapable opts ++ resInterceptors c).

(** The error an interceptor call returned, when it returned one. *)
Definition interceptor_error (e : Event) : error :=
  match e with
  | EvInterceptRequest _ _ (Returned (_, Some err)) => Some err
  | EvInterceptResponse _ _ (Returned (_, Some err)) => Some err
  | _ => None
  end.

(** The value [Do] holds between two calls. *)
Inductive Held :=
| HeldRequest (req : ptr Request)
| HeldResponse (res : ptr Response).

(** [threaded h t res]: starting with [h] in hand, every call of [t] was
    given the value the call before it returned, each returned a nil error,
    and the last returned [res]. *)
Fixpoint threaded (h : Held) (t : list Event) (res : ptr Response) : Prop :=
  match t with
  | [] => h = HeldResponse res
  | EvInterceptRequest _ arg (Returned (req', None)) :: t' =>
      h = HeldRequest arg /\ threaded (HeldRequest req') t' res
  | EvTransport arg (Returned (res', None)) :: t' =>
      h = HeldRequest arg /\ threaded (HeldResponse res') t' res
  | EvInterceptResponse _ arg (Returned (res', None)) :: t' =>
      h = HeldResponse arg /\ threaded (HeldResponse res') t' res
  | EvClose _ :: t' => threaded h t' res
  | _ => False
  end.

(** ** The four loops are one *)

Section Chain.

Context {I T : Type}.
Variable invoke : I -> T -> W -> W * outcome (T * error).
Variable ev : I -> T -> outcome (T * error) -> Event.
Variable onError : T -> ptr Response.

(** Interceptors run in list order, each on what the one before returned;
    the first error ends [Do] with [onError] of the value returned with it. *)
Fixpoint chain (ics : list I) (x : T) : stmt T :=
  match ics with
  | [] => pass x
  | i :: ics' =>
      let! '(x', err) := call (invoke i) (ev i) x in
      match err with
      | Some _ => return_ (onError x') err
      | None => chain ics' x'
      end
  end.

(** [ran ics x t y]: the interceptors [ics], started on [x], all returned a
    nil error, recorded as [t], and the last returned [y]. *)
Inductive ran : list I -> T -> list Event -> T -> Prop :=
| ran_nil x : ran [] x [] x
| ran_cons i ics x x' t y :
    ran ics x' t y ->
    ran (i :: ics) x (ev i x (Returned (x', None)) :: t) y.

(** How a run of [chain] can end. *)
Inductive chain_end (ics : list I) (x : T) : list Event -> step T -> Prop :=
| chain_through t y :
    ran ics x t y ->
    chain_end ics x t (Continue y)
| chain_error ics1 i ics2 t1 y x' e :
    ics = ics1 ++ i :: ics2 ->
    ran ics1 x t1 y ->
    chain_end ics x (t1 ++ [ev i y (Returned (x', Some e))])
      (Return (onError x') (Some e))
| chain_panic ics1 i ics2 t1 y :
    ics = ics1 ++ i :: ics2 ->
    ran ics1 x t1 y ->
    chain_end ics x (t1 ++ [ev i y Panicked]) Panic.

End Chain.

(** ** The pipeline, as the specification words it

    One run of request interceptors, the transport, one run of response
    interceptors with the raw body closed afterwards. *)

Definition requestChain : list RequestInterceptor -> ptr Request -> stmt (ptr Request) :=
  chain InterceptRequest EvInterceptRequest (fun _ => None).

Definition responseChain : list ResponseInterceptor -> ptr Response -> stmt (ptr Response) :=
  chain InterceptResponse EvInterceptResponse (fun res => res).

Definition pipeline (reqs : list RequestInterceptor) (transport : http_Client)
  (ress : list ResponseInterceptor) (req : ptr Request) : stmt Empty_set :=
  let! req := requestChain reqs req in
  let! '(res, err) := call (http_Client_Do transport) EvTransport req in
  match err with
  | Some _ => return_ res err
  | None =>
      match res with
      | None => panic
      | Some r =>
          match ResBody r with
          | None => panic
          | Some body =>
              defer_Close body (
                let! res := responseChain ress res in
                return_ res None)
          end
      end
  end.

(** Every way a run of the pipeline can go: what it records and what it
    gives.  [reqs] and [ress] are the request and response interceptors in
    the order of the pipeline. *)
Inductive pipeline_run (reqs : list RequestInterceptor) (ress : list ResponseInterceptor)
  (req : ptr Request) : list Event -> outcome (ptr Response * error) -> Prop :=
| run_request_error reqs1 i reqs2 t1 y x e :
    reqs = reqs1 ++ i :: reqs2 ->
    ran EvInterceptRequest reqs1 req t1 y ->
    pipeline_run reqs ress req
      (t1 ++ [EvInterceptRequest i y (Returned (x, Some e))])
      (Returned (None, Some e))
| run_request_panic reqs1 i reqs2 t1 y :
    reqs = reqs1 ++ i :: reqs2 ->
    ran EvInterceptRequest reqs1 req t1 y ->
    pipeline_run reqs ress req
      (t1 ++ [EvInterceptRequest i y Panicked])
      Panicked
| run_transport_error t1 y res e :
    ran EvInterceptRequest reqs req t1 y ->
    pipeline_run reqs ress req
      (t1 ++ [EvTransport y (Returned (res, Some e))])
      (Returned (res, Some e))
| run_transport_panic t1 y :
    ran EvInterceptRequest reqs req t1 y ->
    pipeline_run reqs ress req
      (t1 ++ [EvTransport y Panicked])
      Panicked
| run_no_body t1 y res :
    ran EvInterceptRequest reqs req t1 y ->
    (res ≫= ResBody) = None ->
    pipeline_run reqs ress req
      (t1 ++ [EvTransport y (Returned (res, None))])
      Panicked
| run_response_error t1 y raw body ress1 i ress2 t2 z x e :
    ran EvInterceptRequest reqs req t1 y ->
    ResBody raw = Some body ->
    ress = ress1 ++ i :: ress2 ->
    ran EvInterceptResponse ress1 (Some raw) t2 z ->
    pipeline_run reqs ress req
      (t1 ++ EvTransport y (Returned (Some raw, None))
          :: t2 ++ [EvInterceptResponse i z (Returned (x, Some e)); EvClose body])
      (Returned (x, Some e))
| run_response_panic t1 y raw body ress1 i ress2 t2 z :
    ran EvInterceptRequest reqs req t1 y ->
    ResBody raw = Some body ->
    ress = ress1 ++ i :: ress2 ->
    ran EvInterceptResponse ress1 (Some raw) t2 z ->
    pipeline_run reqs ress req
      (t1 ++ EvTransport y (Returned (Some raw, None))
          :: t2 ++ [EvInterceptResponse i z Panicked; EvClose body])
      Panicked
| run_success t1 y raw body t2 z :
    ran EvInterceptRequest reqs req t1 y ->
    ResBody raw = Some body ->
    ran EvInterceptResponse ress (Some raw) t2 z ->
    pipeline_run reqs ress req
      (t1 ++ EvTransport y (Returned (Some raw, None)) :: t2 ++ [EvClose body])
      (Returned (z, None)).

End Pipeline.

Arguments Continue {H A} a.
Arguments Return {H A} res err.
Arguments Panic {H A}.

(** ** [WithRequestHeader] *)

Section HeaderOption.

Context `{Platform}.

(** [textproto.CanonicalMIMEHeaderKey], which [Header.Set] applies to the
    key it is given. *)
Variable CanonicalMIMEHeaderKey : string -> string.

Definition WithRequestHeader (header value : string) : OptionValue :=
  WithRequestInterceptorFunc (fun r w =>
    match r with
    | None => (w, Panicked)
    | Some rq =>
        (w, Returned (Some {| Method := Method rq;
                              URL := URL rq;
                              ReqHeader := Header_Set (ReqHeader rq)
                                             (CanonicalMIMEHeaderKey header) value;
                              ReqBody := ReqBody rq;
                              ContentLength := ContentLength rq |}, None))
    end).

End HeaderOption.

(** ** Doubles for the platform, to run the package on concrete inputs

    The world is a log the doubles write to.  A URL is its text, absolute
    when it starts with a scheme of HTTP; text with a space in it does not
    parse.  A JSON value is given by its encoding, [None] being a value
    [json.Marshal] rejects. *)

Definition test_IsAbs (u : string) : bool :=
  String.prefix "http://" u || String.prefix "https://" u.

Definition test_Parse (s : string) : string + GoError :=
  if existsb (Ascii.eqb " "%char) (list_ascii_of_string s)
  then inr (errorString "parse: invalid character in URL")
  else inl s.

Definition test_Platform : Platform := {|
  W := list string;
  url_URL := string;
  any := option bytes;
  context_Context := unit;
  URL_IsAbs := test_IsAbs;
  URL_String := fun u => u;
  url_Parse := test_Parse;
  json_Marshal := fun v w =>
    (w, match v with
        | Some b => inl b
        | None => inr (errorString "json: unsupported type")
        end);
  json_Unmarshal := fun d v w => (("unmarshal" : string) :: w, None)
|}.

(** A body of the test platform that logs its [Close]. *)
Definition test_body (name : string) (closeErr : error) : @ReadCloser test_Platform :=
  @Build_ReadCloser test_Platform
    (fun w : list string => (w, ([], None)))
    (fun w : list string => (("close " +:+ name) :: w, closeErr)).

Definition test_request (url : string) : @Request test_Platform :=
  @Build_Request test_Platform "GET" url ∅ None 0.

Definition test_response (code : Z) (name : string) : @Response test_Platform :=
  @Build_Response test_Platform code ∅ (Some (test_body name None)).

(** A transport that answers every request with [res] and [err]. *)
Definition test_transport (res : ptr (@Response test_Platform)) (err : error)
  : @http_Client test_Platform :=
  @Build_http_Client test_Platform
    (fun _ (w : list string) => (("transport" : string) :: w, Returned (res, err))).

Definition test_NetHTTP : @NetHTTP test_Platform :=
  @Build_NetHTTP test_Platform
    (test_transport (Some (test_response 200 "raw")) None)
    (fun _ method url =>
       match test_Parse url with
       | inl u =>
           if existsb (Ascii.eqb " "%char) (list_ascii_of_string method)
           then inr (errorString "net/http: invalid method")
           else inl (@Build_Request test_Platform method u ∅ None 0)
       | inr e => inr e
       end).

(** A request interceptor that logs [name], passes the request on and
    returns [err]; the same for responses. *)
Definition test_reqInterceptor (name : string) (err : error)
  : @RequestInterceptor test_Platform :=
  @RequestInterceptorFunc test_Platform
    (fun r (w : list string) => ((name : string) :: w, Returned (r, err))).

Definition test_resInterceptor (name : string) (err : error)
  : @ResponseInterceptor test_Platform :=
  @ResponseInterceptorFunc test_Platform
    (fun r (w : list string) => ((name : string) :: w, Returned (r, err))).

(** The interceptors, clients, options and values of the runs below. *)
Definition R1 := test_reqInterceptor "R1" None.
Definition R2 := test_reqInterceptor "R2" None.
Definition C1 := test_reqInterceptor "C1" None.
Definition D1 := test_resInterceptor "D1" None.
Definition S1 := test_resInterceptor "S1" None.

Definition denied : GoError := errorString "denied".
Definition R2_denies := test_reqInterceptor "R2" (Some denied).
Definition S1_denies := test_resInterceptor "S1" (Some denied).

Definition test_raw : @Response test_Platform := test_response 200 "raw".

Definition test_client : @Client test_Platform :=
  @Build_Client test_Platform (test_transport (Some test_raw) None) [R1; R2] [S1].

Definition test_client_request_denied : @Client test_Platform :=
  @Build_Client test_Platform (test_transport (Some test_raw) None) [R1; R2_denies] [S1].

Definition test_client_response_denied : @Client test_Platform :=
  @Build_Client test_Platform (test_transport (Some test_raw) None) [R1; R2] [S1_denies].

Definition redirects : GoError := errorString "stopped after 10 redirects".

Definition test_client_transport_error : @Client test_Platform :=
  @Build_Client test_Platform (test_transport (Some test_raw) (Some redirects)) [] [].

(** The client [New] builds from [ExpectedStatusCode] with no status code. *)
Definition test_client_rejecting : @Client test_Platform :=
  @Build_Client test_Platform (test_transport (Some test_raw) None) []
    (responseCapable [ExpectedStatusCode []]).

(** A JSON response, and a client without interceptors whose transport
    answers with it. *)
Definition test_json_response : @Response test_Platform :=
  @Build_Response test_Platform 200
    {["Content-Type"%string := ["application/json"%string]]}
    (Some (test_body "raw" None)).

Definition test_client_json : @Client test_Platform :=
  @Build_Client test_Platform (test_transport (Some test_json_response) None) [] [].

Definition test_opts : list (@OptionValue test_Platform) :=
  [RequestInterceptorOption C1; ResponseInterceptorOption D1].

Definition test_req : ptr (@Request test_Platform) := Some (test_request "/a").

(** A decode target, and two values to encode: the JSON text of the string
    hello, quotes included, and a value [json.Marshal] rejects. *)
Definition test_target : @any test_Platform := @None bytes.

Definition test_hello : @any test_Platform :=
  Some [Byte.x22; Byte.x68; Byte.x65; Byte.x6c; Byte.x6c; Byte.x6f; Byte.x22].

Definition test_unsupported : @any test_Platform := @None bytes.

(** Further doubles: a client without interceptors, a reader that logs
    its [Close], the bytes of [test_hello], a client whose transport echoes
    the body of the request as a JSON response, and a key canonicalisation
    that knows one header name. *)
Definition test_client_plain : @Client test_Platform :=
  @Build_Client test_Platform (test_transport (Some test_raw) None) [] [].

Definition test_reader (name : string) : @Reader test_Platform :=
  @Build_Reader test_Platform
    (fun w : list string => (w, ([], None)))
    (Some (fun w : list string => (("close " +:+ name) :: w, None))).

Definition test_hello_bytes : bytes :=
  [Byte.x22; Byte.x68; Byte.x65; Byte.x6c; Byte.x6c; Byte.x6f; Byte.x22].

Definition test_echo_response (d : bytes) : @Response test_Platform :=
  @Build_Response test_Platform 200
    {["Content-Type"%string := ["application/json"%string]]}
    (Some (@Build_ReadCloser test_Platform
             (fun w : list string => (("read" : string) :: w, (d, None)))
             (fun w : list string => (("close raw" : string) :: w, None)))).

Definition test_client_echo : @Client test_Platform :=
  @Build_Client test_Platform
    (@Build_http_Client test_Platform
       (fun req (w : list string) =>
          match req with
          | Some rq =>
              match ReqBody rq with
              | Some body =>
                  (("transport" : string) :: w,
                   Returned (Some (test_echo_response (rcReadAll body w).2.1), None))
              | None => (w, Returned (None, Some (errorString "no body to echo")))
              end
          | None => (w, Panicked)
          end))
    [] [].

Definition test_CanonicalMIMEHeaderKey (s : string) : string :=
  if String.eqb s "user-agent" then "User-Agent"%string else s.

(** * Properties *)

Section Facts.

Context `{Platform}.
Context `{!NetHTTP}.

(** ** Runs of [chain] *)

Section ChainFacts.

Context {I T : Type}.
Variable invoke : I -> T -> W -> W * outcome (T * error).
Variable ev : I -> T -> outcome (T * error) -> Event.
Variable onError : T -> ptr Response.

Lemma chain_end_cons i ics x x' t s :
  chain_end ev onError ics x' t s ->
  chain_end ev onError (i :: ics) x (ev i x (Returned (x', None)) :: t) s.
Proof.
  intros Hrun.
  destruct Hrun as [t y Hr | ics1 j ics2 t1 y z e -> Hr | ics1 j ics2 t1 y -> Hr].
  - apply chain_through. by constructor.
  - apply (chain_error _ _ _ _ (i :: ics1) j ics2 (_ :: t1)); [done | by constructor].
  - apply (chain_panic _ _ _ _ (i :: ics1) j ics2 (_ :: t1)); [done | by constructor].
Qed.

Lemma chain_ends ics x w :
  chain_end ev onError ics x
    (chain invoke ev onError ics x w).1.2 (chain invoke ev onError ics x w).2.
Proof.
  revert x w. induction ics as [| i ics IH]; intros x w; simpl.
  - apply chain_through. constructor.
  - unfold seq, call. destruct (invoke i x w) as [w1 [[x' [e |]] |]] eqn:E; simpl.
    + apply (chain_error _ _ _ _ [] i ics []); [done | constructor].
    + specialize (IH x' w1).
      destruct (chain invoke ev onError ics x' w1) as [[w2 t2] s2]; simpl in *.
      by apply chain_end_cons.
    + apply (chain_panic _ _ _ _ [] i ics []); [done | constructor].
Qed.

Lemma chain_app ics1 ics2 x w :
  chain invoke ev onError (ics1 ++ ics2) x w
  = seq (chain invoke ev onError ics1 x) (chain invoke ev onError ics2) w.
Proof.
  revert x w. induction ics1 as [| i ics1 IH]; intros x w; simpl.
  - unfold seq, pass. by destruct (chain invoke ev onError ics2 x w) as [[? ?] ?].
  - unfold seq, call in *.
    destruct (invoke i x w) as [w1 [[x' [e |]] |]]; simpl; try done.
    rewrite IH.
    destruct (chain invoke ev onError ics1 x' w1) as [[w2 t2] [y | |]]; simpl; try done.
    by destruct (chain invoke ev onError ics2 y w2) as [[? ?] ?].
Qed.

Lemma chain_return ics x w res err :
  (chain invoke ev onError ics x w).2 = Return res err -> err <> None.
Proof.
  intros E. pose proof (chain_ends ics x w) as Hend. rewrite E in Hend.
  by inversion Hend.
Qed.

End ChainFacts.

(** ** [Do] runs the pipeline *)

Lemma seq_assoc {A B C} (m : stmt A) (f : A -> stmt B) (g : B -> stmt C) w :
  seq (seq m f) g w = seq m (fun a => seq (f a) g) w.
Proof.
  unfold seq. destruct (m w) as [[w1 t1] [a | |]]; try done.
  destruct (f a w1) as [[w2 t2] [b | |]]; try done.
  destruct (g b w2) as [[w3 t3] s3]. by rewrite app_assoc.
Qed.

Lemma seq_ext {A B} (m : stmt A) (f g : A -> stmt B) w :
  (forall a w', f a w' = g a w') -> seq m f w = seq m g w.
Proof.
  intros Hfg. unfold seq. destruct (m w) as [[w1 t1] [a | |]]; try done.
  by rewrite Hfg.
Qed.

Lemma range_reqInterceptors_chain ics req w :
  range_reqInterceptors ics req w = requestChain ics req w.
Proof.
  revert req w. induction ics as [| i ics IH]; intros req w; [done |].
  simpl. apply seq_ext. intros [req' [e |]] w'; [done | apply IH].
Qed.

Lemma range_opts_RequestInterceptor_chain opts req w :
  range_opts_RequestInterceptor opts req w = requestChain (requestCapable opts) req w.
Proof.
  revert req w. induction opts as [| opt opts IH]; intros req w; [done |].
  unfold requestCapable. simpl. destruct (asRequestInterceptor opt) as [i |]; simpl.
  - apply seq_ext. intros [req' [e |]] w'; [done | apply IH].
  - apply IH.
Qed.

Lemma range_opts_ResponseInterceptor_chain opts res w :
  range_opts_ResponseInterceptor opts res w = responseChain (responseCapable opts) res w.
Proof.
  revert res w. induction opts as [| opt opts IH]; intros res w; [done |].
  unfold responseCapable. simpl. destruct (asResponseInterceptor opt) as [i |]; simpl.
  - apply seq_ext. intros [res' [e |]] w'; [done | apply IH].
  - apply IH.
Qed.

Lemma range_resInterceptors_chain ics res w :
  range_resInterceptors ics res w = responseChain ics res w.
Proof.
  revert res w. induction ics as [| i ics IH]; intros res w; [done |].
  simpl. apply seq_ext. intros [res' [e |]] w'; [done | apply IH].
Qed.

Lemma seq_cong {A B} (m m' : stmt A) (f g : A -> stmt B) w :
  (forall w', m w' = m' w') -> (forall a w', f a w' = g a w') ->
  seq m f w = seq m' g w.
Proof.
  intros Hm Hfg. unfold seq. rewrite Hm.
  destruct (m' w) as [[w1 t1] [a | |]]; try done. by rewrite Hfg.
Qed.

Lemma defer_Close_cong {A} body (m m' : stmt A) w :
  (forall w', m w' = m' w') -> defer_Close body m w = defer_Close body m' w.
Proof. intros Hm. unfold defer_Close. by rewrite Hm. Qed.

(** The two request loops of [Do] are one run over the client's request
    interceptors followed by the call's, and the two response loops one run
    over the call's response interceptors followed by the client's. *)
Lemma Do_body_pipeline c req opts w :
  Do_body c req opts w
  = pipeline (reqInterceptors c ++ requestCapable opts) (client_c c)
      (responseCapable opts ++ resInterceptors c) req w.
Proof.
  unfold Do_body, pipeline.
  rewrite (seq_cong (requestChain _ req) (seq (requestChain (reqInterceptors c) req)
             (requestChain (requestCapable opts))) _ _ w
             (chain_app _ _ _ _ _ _) (fun _ _ => eq_refl)).
  rewrite seq_assoc.
  apply seq_cong; [apply range_reqInterceptors_chain |].
  intros req1 w1. apply seq_cong; [apply range_opts_RequestInterceptor_chain |].
  intros req2 w2. apply seq_ext. intros [res [e |]] w3; [done |].
  destruct res as [r |]; [| done]. destruct (ResBody r) as [body |]; [| done].
  apply defer_Close_cong. intros w4.
  rewrite (seq_cong (responseChain _ (Some r)) (seq (responseChain (responseCapable opts) (Some r))
             (responseChain (resInterceptors c))) _ _ w4
             (chain_app _ _ _ _ _ _) (fun _ _ => eq_refl)).
  rewrite seq_assoc.
  apply seq_cong; [apply range_opts_ResponseInterceptor_chain |].
  intros res1 w5. apply seq_cong; [apply range_resInterceptors_chain | done].
Qed.

Lemma Do_pipeline c req opts w :
  Do c req opts w
  = run (pipeline (reqInterceptors c ++ requestCapable opts) (client_c c)
           (responseCapable opts ++ resInterceptors c) req) w.
Proof. unfold Do, run. by rewrite Do_body_pipeline. Qed.

Lemma pipeline_runs reqs transport ress req w :
  pipeline_run reqs ress req
    (run (pipeline reqs transport ress req) w).1.2
    (run (pipeline reqs transport ress req) w).2.
Proof.
  unfold run, pipeline, seq, requestChain.
  pose proof (chain_ends InterceptRequest EvInterceptRequest (fun _ => None) reqs req w) as Hreq.
  destruct (chain InterceptRequest EvInterceptRequest _ reqs req w) as [[w1 t1] s1].
  simpl in Hreq.
  destruct Hreq as [t1 y Hr | reqs1 i reqs2 t1 y x e -> Hr | reqs1 i reqs2 t1 y -> Hr];
    simpl.
  2: by eapply run_request_error.
  2: by eapply run_request_panic.
  unfold call. destruct (http_Client_Do transport y w1) as [w2 [[res [e |]] |]]; simpl.
  - by apply run_transport_error.
  - destruct res as [r |]; simpl; [| by apply run_no_body].
    destruct (ResBody r) as [body |] eqn:Hbody; simpl; [| by apply run_no_body].
    unfold defer_Close, seq, responseChain.
    pose proof (chain_ends InterceptResponse EvInterceptResponse (fun res => res)
                  ress (Some r) w2) as Hres.
    destruct (chain InterceptResponse EvInterceptResponse _ ress (Some r) w2)
      as [[w3 t3] s3].
    simpl in Hres.
    destruct Hres as [t3 z Hs | ress1 j ress2 t3 z x e -> Hs | ress1 j ress2 t3 z -> Hs];
      simpl; destruct (Close body _) as [w4 ?]; simpl.
    + rewrite app_nil_r. by apply run_success.
    + rewrite <- app_assoc. simpl. by eapply run_response_error.
    + rewrite <- app_assoc. simpl. by eapply run_response_panic.
  - by apply run_transport_panic.
Qed.

(** Every call of [Do] is a run of the pipeline over the client's request
    interceptors followed by the call's, and the call's response
    interceptors followed by the client's. *)
Lemma Do_runs c req opts w w' t out :
  Do c req opts w = (w', t, out) ->
  pipeline_run (reqInterceptors c ++ requestCapable opts)
    (responseCapable opts ++ resInterceptors c) req t out.
Proof.
  intros HDo. rewrite Do_pipeline in HDo.
  pose proof (pipeline_runs (reqInterceptors c ++ requestCapable opts) (client_c c)
                (responseCapable opts ++ resInterceptors c) req w) as Hrun.
  by rewrite HDo in Hrun.
Qed.

(** ** Records of runs that returned no error *)

Lemma ran_request_calls ics x t y :
  ran EvInterceptRequest ics x t y -> calls t = map CallRequest ics.
Proof. induction 1 as [| i ics x x' t y _ IH]; [done |]. simpl. by rewrite <- IH. Qed.

Lemma ran_response_calls ics x t y :
  ran EvInterceptResponse ics x t y -> calls t = map CallResponse ics.
Proof. induction 1 as [| i ics x x' t y _ IH]; [done |]. simpl. by rewrite <- IH. Qed.

Lemma ran_request_threaded ics x t y t' res :
  ran EvInterceptRequest ics x t y ->
  threaded (HeldRequest y) t' res ->
  threaded (HeldRequest x) (t ++ t') res.
Proof. induction 1 as [| i ics x x' t y _ IH]; [done |]. intros Ht'. simpl. auto. Qed.

Lemma ran_response_threaded ics x t y t' res :
  ran EvInterceptResponse ics x t y ->
  threaded (HeldResponse y) t' res ->
  threaded (HeldResponse x) (t ++ t') res.
Proof. induction 1 as [| i ics x x' t y _ IH]; [done |]. intros Ht'. simpl. auto. Qed.

Lemma calls_app t1 t2 : calls (t1 ++ t2) = calls t1 ++ calls t2.
Proof. apply omap_app. Qed.

Lemma closes_app t1 t2 : closes (t1 ++ t2) = closes t1 ++ closes t2.
Proof. apply omap_app. Qed.

(** ** The order of a successful call *)

(** C2: for a client with request interceptors [R] and response interceptors
    [S], and call options whose request-capable members are [C] and whose
    response-capable members are [D], a call of [Do] that returns a nil
    error has called exactly [R], then [C], then the transport, then [D],
    then [S], each once and in list order, and each call was given the
    value the call before it returned, the first one [req]; [Do] returns
    what the last one returned. *)
Theorem Do_invocation_order c req opts w w' t res R S C D :
  reqInterceptors c = R ->
  resInterceptors c = S ->
  requestCapable opts = C ->
  responseCapable opts = D ->
  Do c req opts w = (w', t, Returned (res, None)) ->
  calls t = map CallRequest R ++ map CallRequest C ++ [CallTransport]
            ++ map CallResponse D ++ map CallResponse S
  /\ threaded (HeldRequest req) t res.
Proof.
  intros <- <- <- <- HDo. apply Do_runs in HDo.
  inversion HDo as [| | | | | | | t1 y raw body t2 z Hreq Hbody Hres]; subst.
  split.
  - rewrite calls_app. simpl. rewrite calls_app. simpl.
    rewrite (ran_request_calls _ _ _ _ Hreq), (ran_response_calls _ _ _ _ Hres).
    rewrite !map_app, app_nil_r, <- !app_assoc. done.
  - eapply ran_request_threaded; [done |]. simpl. split; [done |].
    eapply ran_response_threaded; [done |]. done.
Qed.

(** ** The first error ends the call *)

Lemma ran_request_no_error ics x t y :
  ran EvInterceptRequest ics x t y ->
  Forall (fun e => interceptor_error e = None) t.
Proof. induction 1; constructor; done. Qed.

Lemma ran_response_no_error ics x t y :
  ran EvInterceptResponse ics x t y ->
  Forall (fun e => interceptor_error e = None) t.
Proof. induction 1; constructor; done. Qed.

(** In a list split around an element failing [P], with [P] on both sides,
    that element is found at one place only. *)
Lemma split_unique {A} (P : A -> Prop) (t1 : list A) ev t2 pre x post :
  t1 ++ ev :: t2 = pre ++ x :: post ->
  Forall P pre -> Forall P post -> ~ P ev ->
  t1 = pre /\ ev = x /\ t2 = post.
Proof.
  revert pre. induction t1 as [| a t1 IH]; intros [| p pre] Heq Hpre Hpost Hev;
    simpl in Heq; injection Heq as -> Heq.
  - done.
  - by apply Forall_cons in Hpre as [? _].
  - exfalso. apply Hev. rewrite Forall_forall in Hpost. apply Hpost.
    rewrite <- Heq. apply list_elem_of_In, in_elt.
  - apply Forall_cons in Hpre as [_ Hpre].
    destruct (IH pre Heq Hpre Hpost Hev) as (-> & -> & ->). done.
Qed.

Lemma split_absent {A} (P : A -> Prop) (t1 : list A) ev t2 t :
  t = t1 ++ ev :: t2 -> Forall P t -> ~ P ev -> False.
Proof.
  intros -> Ht Hev. apply Hev. rewrite Forall_forall in Ht.
  apply Ht, list_elem_of_In, in_elt.
Qed.

Lemma Forall_no_error_app t1 t2 :
  Forall (fun e => interceptor_error e = None) t1 ->
  Forall (fun e => interceptor_error e = None) t2 ->
  Forall (fun e => interceptor_error e = None) (t1 ++ t2).
Proof. intros. by apply Forall_app. Qed.

(** What a run that records an interceptor's error [e] looks like: the
    erring call is the last call recorded, and the run gives [e]. *)
Lemma pipeline_run_error reqs ress req t out t1 ev t2 e :
  pipeline_run reqs ress req t out ->
  t = t1 ++ ev :: t2 ->
  interceptor_error ev = Some e ->
  (exists reqs1 i reqs2 y x,
      reqs = reqs1 ++ i :: reqs2 /\ ran EvInterceptRequest reqs1 req t1 y /\
      ev = EvInterceptRequest i y (Returned (x, Some e)) /\ t2 = [] /\
      out = Returned (None, Some e))
  \/ (exists t0 y y' raw body ress1 i ress2 t3 z x,
      ran EvInterceptRequest reqs req t0 y /\
      ress = ress1 ++ i :: ress2 /\ ran EvInterceptResponse ress1 (Some raw) t3 z /\
      y' = Returned (Some raw, None) /\
      t1 = t0 ++ EvTransport y y' :: t3 /\
      ev = EvInterceptResponse i z (Returned (x, Some e)) /\ t2 = [EvClose body] /\
      out = Returned (x, Some e)).
Proof.
  intros Hrun Ht Hev.
  assert (Hloud : ~ interceptor_error ev = None) by congruence.
  destruct Hrun as
    [reqs1 i reqs2 t0 y x e' -> Hr | reqs1 i reqs2 t0 y -> Hr | t0 y res e' Hr | t0 y Hr
    | t0 y res Hr Hb | t0 y raw body ress1 i ress2 t3 z x e' Hr Hb -> Hs
    | t0 y raw body ress1 i ress2 t3 z Hr Hb -> Hs | t0 y raw body t3 z Hr Hb Hs];
    pose proof (ran_request_no_error _ _ _ _ Hr) as Hq.
  - symmetry in Ht.
    destruct (split_unique (fun e => interceptor_error e = None)
                _ _ _ _ _ _ Ht Hq (Forall_nil_2 _) Hloud) as (-> & -> & ->).
    left. simpl in Hev. injection Hev as ->. by exists reqs1, i, reqs2, y, x.
  - exfalso.
    eapply (split_absent (fun e => interceptor_error e = None)); [exact Ht | | exact Hloud].
    apply Forall_no_error_app; [done | by repeat constructor].
  - exfalso.
    eapply (split_absent (fun e => interceptor_error e = None)); [exact Ht | | exact Hloud].
    apply Forall_no_error_app; [done | by repeat constructor].
  - exfalso.
    eapply (split_absent (fun e => interceptor_error e = None)); [exact Ht | | exact Hloud].
    apply Forall_no_error_app; [done | by repeat constructor].
  - exfalso.
    eapply (split_absent (fun e => interceptor_error e = None)); [exact Ht | | exact Hloud].
    apply Forall_no_error_app; [done | by repeat constructor].
  - pose proof (ran_response_no_error _ _ _ _ Hs) as Hq'.
    assert (Heq : t1 ++ ev :: t2
                  = (t0 ++ EvTransport y (Returned (Some raw, None)) :: t3)
                    ++ EvInterceptResponse i z (Returned (x, Some e')) :: [EvClose body]).
    { rewrite <- Ht, <- app_assoc. done. }
    assert (Hpre : Forall (fun e => interceptor_error e = None)
                     (t0 ++ EvTransport y (Returned (Some raw, None)) :: t3)).
    { apply Forall_no_error_app; [done | by constructor]. }
    assert (Hpost : Forall (fun e => interceptor_error e = None) [EvClose body]).
    { by repeat constructor. }
    destruct (split_unique (fun e => interceptor_error e = None)
                _ _ _ _ _ _ Heq Hpre Hpost Hloud) as (-> & -> & ->).
    right. simpl in Hev. injection Hev as ->.
    by exists t0, y, (Returned (Some raw, None)), raw, body, ress1, i, ress2, t3, z, x.
  - pose proof (ran_response_no_error _ _ _ _ Hs) as Hq'.
    exfalso.
    eapply (split_absent (fun e => interceptor_error e = None)); [exact Ht | | exact Hloud].
    apply Forall_no_error_app; [done |]. constructor; [done |].
    apply Forall_no_error_app; [done | by repeat constructor].
  - pose proof (ran_response_no_error _ _ _ _ Hs) as Hq'.
    exfalso.
    eapply (split_absent (fun e => interceptor_error e = None)); [exact Ht | | exact Hloud].
    apply Forall_no_error_app; [done |]. constructor; [done |].
    apply Forall_no_error_app; [done | by repeat constructor].
Qed.

(** C3: in every call of [Do], when a call to an interceptor, of the
    request or of the response phase, is recorded as returning a non-nil
    error [e], no interceptor and no transport is called after it
    ([calls t2 = []]), the calls made up to it are an initial part of the
    full ordered sequence of the call, and [Do] returns exactly [e]; when
    the erring interceptor is a request interceptor, [Do] returns
    [(nil, e)] and the transport is not called. *)
Theorem Do_first_error_wins c req opts w w' t out t1 ev t2 e :
  Do c req opts w = (w', t, out) ->
  t = t1 ++ ev :: t2 ->
  interceptor_error ev = Some e ->
  calls t2 = []
  /\ (exists later, schedule c opts = calls (t1 ++ [ev]) ++ later)
  /\ (exists res, out = Returned (res, Some e))
  /\ (forall i arg ret, ev = EvInterceptRequest i arg ret ->
        out = Returned (None, Some e) /\ ~ In CallTransport (calls t)).
Proof.
  intros HDo Ht Hev. apply Do_runs in HDo.
  destruct (pipeline_run_error _ _ _ _ _ _ _ _ _ HDo Ht Hev) as
    [(reqs1 & i & reqs2 & y & x & Hreqs & Hr & -> & -> & ->)
    | (t0 & y & y' & raw & body & ress1 & i & ress2 & t3 & z & x
       & Hr & Hress & Hs & -> & -> & -> & -> & ->)].
  - split; [done |]. split; [| split].
    + exists (map CallRequest reqs2 ++ [CallTransport]
              ++ map CallResponse (responseCapable opts ++ resInterceptors c)).
      unfold schedule. rewrite Hreqs, calls_app, (ran_request_calls _ _ _ _ Hr).
      rewrite map_app. simpl. rewrite <- !app_assoc. done.
    + by exists None.
    + intros _ _ _ _. split; [done |]. subst t.
      rewrite calls_app, (ran_request_calls _ _ _ _ Hr). simpl.
      intros [Hin | [Hin | []]]%in_app_or; [| done].
      apply in_map_iff in Hin as (? & ? & _). done.
  - split; [done |]. split; [| split].
    + exists (map CallResponse ress2).
      unfold schedule. rewrite Hress, !calls_app. simpl. rewrite ?calls_app.
      rewrite (ran_request_calls _ _ _ _ Hr), (ran_response_calls _ _ _ _ Hs).
      rewrite !map_app. simpl. rewrite <- ?app_assoc. simpl. rewrite <- ?app_assoc. done.
    + by exists x.
    + intros ? ? ? [=].
Qed.

(** C9: in every call of [Do], a response interceptor recorded as returning
    [(r, e)] with [e] non-nil makes [Do] return that [r] with that [e]; a
    request interceptor recorded as returning a non-nil [e] makes [Do]
    return a nil response with [e]; and when [Do] returns a non-nil
    response with a non-nil error, that pair is what the transport
    returned or what a response interceptor returned. *)
Theorem Do_response_with_error c req opts w w' t out :
  Do c req opts w = (w', t, out) ->
  (forall i arg r e,
      In (EvInterceptResponse i arg (Returned (r, Some e))) t ->
      out = Returned (r, Some e))
  /\ (forall i arg r e,
      In (EvInterceptRequest i arg (Returned (r, Some e))) t ->
      out = Returned (None, Some e))
  /\ (forall r e,
      out = Returned (Some r, Some e) ->
      (exists arg, In (EvTransport arg (Returned (Some r, Some e))) t)
      \/ (exists i arg, In (EvInterceptResponse i arg (Returned (Some r, Some e))) t)).
Proof.
  intros HDo. apply Do_runs in HDo. split; [| split].
  - intros i arg r e (t1 & t2 & Ht)%in_split.
    destruct (pipeline_run_error _ _ _ _ _ _ _ _ e HDo Ht eq_refl) as
      [(? & ? & ? & ? & ? & _ & _ & [=] & _)
      | (? & ? & ? & ? & ? & ? & ? & ? & ? & ? & ? & _ & _ & _ & _ & _ & [= _ _ <-] & _ & ->)].
    done.
  - intros i arg r e (t1 & t2 & Ht)%in_split.
    destruct (pipeline_run_error _ _ _ _ _ _ _ _ e HDo Ht eq_refl) as
      [(? & ? & ? & ? & ? & _ & _ & _ & _ & ->)
      | (? & ? & ? & ? & ? & ? & ? & ? & ? & ? & ? & _ & _ & _ & _ & _ & [=] & _)].
    done.
  - intros r e ->.
    inversion HDo as
      [| | t0 y res e' Hr | | | t0 y raw body ress1 i ress2 t3 z x e' Hr Hb Hress Hs | |];
      subst.
    + left. exists y. apply in_elt.
    + right. exists i, z. apply in_or_app. right. right.
      apply in_or_app. right. by left.
Qed.

(** ** Closing the raw response body *)

Lemma ran_request_closes ics x t y :
  ran EvInterceptRequest ics x t y -> closes t = [].
Proof. induction 1; done. Qed.

Lemma ran_response_closes ics x t y :
  ran EvInterceptResponse ics x t y -> closes t = [].
Proof. induction 1; done. Qed.

Lemma ran_request_no_transport ics x t y :
  ran EvInterceptRequest ics x t y ->
  Forall (fun e => call_of e <> Some CallTransport) t.
Proof. induction 1; constructor; done. Qed.

Lemma ran_response_no_transport ics x t y :
  ran EvInterceptResponse ics x t y ->
  Forall (fun e => call_of e <> Some CallTransport) t.
Proof. induction 1; constructor; done. Qed.

Lemma transport_absent t a r :
  Forall (fun e => call_of e <> Some CallTransport) t ->
  In (EvTransport a r) t -> False.
Proof.
  intros Ht Hin. rewrite Forall_forall in Ht.
  by apply (Ht _ (proj2 (list_elem_of_In _ _) Hin)).
Qed.

Lemma transport_unique t1 y r t2 a r' :
  Forall (fun e => call_of e <> Some CallTransport) t1 ->
  Forall (fun e => call_of e <> Some CallTransport) t2 ->
  In (EvTransport a r') (t1 ++ EvTransport y r :: t2) ->
  a = y /\ r' = r.
Proof.
  intros H1 H2 [Hin | [[= -> ->] | Hin]]%in_app_or.
  - destruct (transport_absent _ _ _ H1 Hin).
  - done.
  - destruct (transport_absent _ _ _ H2 Hin).
Qed.


(** ** The status-code validator *)

Lemma ExpectedStatusCode_range_spec codes (r : Response) :
  ExpectedStatusCode_range codes r
  = (Some r, if bool_decide (StatusCode r ∈ codes) then None
             else Some (fmt_Errorf_d "unexpected status code: " (StatusCode r))).
Proof.
  induction codes as [| code codes IH]; simpl.
  - done.
  - destruct (Z.eqb_spec (StatusCode r) code) as [-> | Hne].
    + rewrite bool_decide_eq_true_2; [done | left].
    + rewrite IH. destruct (bool_decide_reflect (StatusCode r ∈ codes)) as [Hin | Hnin].
      * rewrite bool_decide_eq_true_2; [done | by right].
      * rewrite bool_decide_eq_false_2; [done |].
        intros [? | ?]%elem_of_cons; done.
Qed.

(** C5: for every set of expected status codes [codes] and every response
    [r], the response interceptor that [ExpectedStatusCode codes] is returns
    [r] itself, with a nil error when the status code of [r] is one of
    [codes], and otherwise with an error whose message is
    "unexpected status code: " followed by the status code of [r] in
    decimal; it changes nothing else. *)
Theorem ExpectedStatusCode_validates (codes : list Z) (r : Response) (w : W) :
  exists i,
    asResponseInterceptor (ExpectedStatusCode codes) = Some i
    /\ asRequestInterceptor (ExpectedStatusCode codes) = None
    /\ InterceptResponse i (Some r) w
       = (w, Returned (Some r,
                       if bool_decide (StatusCode r ∈ codes) then None
                       else Some (errorString
                                    ("unexpected status code: " +:+ fmt_d (StatusCode r))))).
Proof.
  eexists. split; [done |]. split; [done |]. simpl.
  by rewrite ExpectedStatusCode_range_spec.
Qed.

(** A response interceptor that never returns a nil error stops every run
    it is part of. *)
Lemma responseChain_rejected i ics res w y :
  In i ics ->
  (forall res' w' w'' r, InterceptResponse i res' w' <> (w'', Returned (r, None))) ->
  (responseChain ics res w).2 <> Continue y.
Proof.
  intros Hin Hrej. revert res w.
  induction ics as [| j ics IH]; intros res w; [done |].
  unfold responseChain in *. simpl. unfold seq, call.
  destruct (InterceptResponse j res w) as [w1 [[res' [e |]] |]] eqn:Hj; simpl; try done.
  destruct Hin as [-> | Hin]; [by destruct (Hrej _ _ _ _ Hj) |].
  specialize (IH Hin res' w1).
  by destruct (chain _ _ _ ics res' w1) as [[w2 t2] s2].
Qed.

Lemma pipeline_success reqs transport ress req w w' t res :
  run (pipeline reqs transport ress req) w = (w', t, Returned (res, None)) ->
  exists raw w2, (responseChain ress (Some raw) w2).2 = Continue res.
Proof.
  unfold run, pipeline, seq.
  destruct (requestChain reqs req w) as [[w1 t1] [req1 | res1 err1 |]] eqn:Hreq;
    simpl; try done.
  2: { intros [= _ _ _ ->].
       by destruct (chain_return _ _ _ reqs req w res1 None (f_equal snd Hreq)). }
  unfold call. destruct (http_Client_Do transport req1 w1) as [w2 [[raw [e |]] |]];
    simpl; try done.
  destruct raw as [raw |]; simpl; try done.
  destruct (ResBody raw) as [body |]; simpl; try done.
  unfold defer_Close, seq.
  destruct (responseChain ress (Some raw) w2) as [[w3 t3] [res3 | res3 err3 |]] eqn:Hres;
    simpl; destruct (Close body w3) as [w4 ?]; simpl; try done.
  - intros [= _ _ <-]. exists raw, w2. by rewrite Hres.
  - intros [= _ _ _ ->].
    by destruct (chain_return _ _ _ ress (Some raw) w2 res3 None (f_equal snd Hres)).
Qed.

Lemma New_range_keeps_response i opts c0 c :
  New_range opts c0 = Returned c ->
  In i (resInterceptors c0) \/ In (ResponseInterceptorOption i) opts ->
  In i (resInterceptors c).
Proof.
  revert c0. induction opts as [| opt opts IH]; intros c0 HNew Hin; simpl in HNew.
  - destruct Hin as [Hin | []]. by injection HNew as <-.
  - destruct opt as [f | ri | si | v | [ri |] [si |]]; simpl in HNew;
      try done; apply (IH _ HNew); simpl;
      destruct Hin as [Hin | [Heq | Hin]];
      first [ by right
            | by left
            | left; apply in_or_app; by left
            | injection Heq as ->; left; apply in_or_app; right; by left
            | done ].
Qed.

(** C10: [ExpectedStatusCode] with no status code is a response interceptor
    that, for every response [r], returns a non-nil error whose message
    names the status code of [r]; a call of [Do] with that option among its
    call options, or through a client that has it among its response
    interceptors (as [New] registers it), never returns a nil error. *)
Theorem ExpectedStatusCode_empty_rejects_all :
  exists i,
    asResponseInterceptor (ExpectedStatusCode []) = Some i
    /\ (forall (r : Response) (w : W),
          InterceptResponse i (Some r) w
          = (w, Returned (Some r,
                          Some (errorString
                                  ("unexpected status code: " +:+ fmt_d (StatusCode r))))))
    /\ (forall c req opts w res,
          In (ExpectedStatusCode []) opts \/ In i (resInterceptors c) ->
          (Do c req opts w).2 <> Returned (res, None))
    /\ (forall opts0 c,
          New opts0 = Returned c -> In (ExpectedStatusCode []) opts0 ->
          In i (resInterceptors c)).
Proof.
  eexists. split; [done |]. split; [done |]. split.
  - intros c req opts w res Hin HDo.
    destruct (Do c req opts w) as [[w' t] out] eqn:E. simpl in HDo. subst out.
    rewrite Do_pipeline in E. apply pipeline_success in E as (raw & w2 & Hres).
    eapply responseChain_rejected; [| | exact Hres].
    + apply in_or_app. destruct Hin as [Hin | Hin]; [left | by right].
      unfold responseCapable. apply list_elem_of_In, list_elem_of_omap.
      exists (ExpectedStatusCode []). split; [by apply list_elem_of_In | done].
    + intros [r |] w1 w1' r'; simpl; congruence.
  - intros opts0 c HNew Hin. eapply New_range_keeps_response; [exact HNew |].
    by right.
Qed.

(** ** The URL prefix *)

(** C6: for every prefix and every request [rq], the request interceptor
    that [WithURLPrefix prefix] is returns [rq] unchanged with a nil error
    when the URL of [rq] is absolute; when it is not, and
    [prefix + rq.URL.String()] parses to [u], it returns [rq] with its URL
    set to [u] and nothing else changed; and when that text does not parse,
    it returns the parse error, with [rq] as it was. *)
Theorem WithURLPrefix_prefixes (prefix : string) (rq : Request) (w : W) :
  exists i,
    asRequestInterceptor (WithURLPrefix prefix) = Some i
    /\ (URL_IsAbs (URL rq) = true ->
        InterceptRequest i (Some rq) w = (w, Returned (Some rq, None)))
    /\ (forall u,
          URL_IsAbs (URL rq) = false ->
          url_Parse (prefix +:+ URL_String (URL rq)) = inl u ->
          exists rq',
            InterceptRequest i (Some rq) w = (w, Returned (Some rq', None))
            /\ URL rq' = u
            /\ Method rq' = Method rq
            /\ ReqHeader rq' = ReqHeader rq
            /\ ReqBody rq' = ReqBody rq
            /\ ContentLength rq' = ContentLength rq)
    /\ (forall err,
          URL_IsAbs (URL rq) = false ->
          url_Parse (prefix +:+ URL_String (URL rq)) = inr err ->
          InterceptRequest i (Some rq) w = (w, Returned (Some rq, Some err))).
Proof.
  eexists. split; [done |]. simpl. split; [| split].
  - by intros ->.
  - intros u -> ->. simpl. by eexists.
  - by intros err -> ->.
Qed.

(** ** The JSON body *)

(** C7: for every value and every request [rq], the request interceptor that
    [WithJSON value] is first marshals the value.  When marshalling fails it
    returns that error with [rq] as it was, and closes nothing.  Otherwise
    it closes the body [rq] had, if it had one; when that [Close] fails it
    returns the close error with [rq] as it was; otherwise it returns, with
    a nil error, [rq] with its body set to a reader of exactly the
    marshalled bytes whose [Close] does nothing, its Content-Type header
    set to the single value application/json, its other headers, its method
    and its URL unchanged, and its content length set to the number of
    marshalled bytes. *)
Theorem WithJSON_sets_body (value : any) (rq : Request) (w : W) :
  exists i,
    asRequestInterceptor (WithJSON value) = Some i
    /\ match json_Marshal value w with
       | (w1, inr err) =>
           InterceptRequest i (Some rq) w = (w1, Returned (Some rq, Some err))
       | (w1, inl b) =>
           let closed :=
             match ReqBody rq with
             | Some old => Close old w1
             | None => (w1, None)
             end in
           match closed.2 with
           | Some cerr =>
               InterceptRequest i (Some rq) w
               = (closed.1, Returned (Some rq, Some cerr))
           | None =>
               exists rq',
                 InterceptRequest i (Some rq) w
                 = (closed.1, Returned (Some rq', None))
                 /\ ReqBody rq' = Some (readCloser (bytes_NewReader b))
                 /\ (forall w0, rcReadAll (readCloser (bytes_NewReader b)) w0
                                = (w0, (b, None)))
                 /\ (forall w0, Close (readCloser (bytes_NewReader b)) w0 = (w0, None))
                 /\ ReqHeader rq' !! "Content-Type"%string = Some ["application/json"%string]
                 /\ (forall k, k <> "Content-Type"%string ->
                               ReqHeader rq' !! k = ReqHeader rq !! k)
                 /\ ContentLength rq' = Z.of_nat (length b)
                 /\ Method rq' = Method rq
                 /\ URL rq' = URL rq
           end
       end.
Proof.
  eexists. split; [done |]. simpl.
  destruct (json_Marshal value w) as [w1 [b | err]]; [| done]. simpl.
  destruct (match ReqBody rq with
            | Some old => Close old w1
            | None => (w1, None)
            end) as [w2 [cerr |]]; simpl; [done |].
  eexists. split; [done |]. simpl. unfold Header_Set.
  repeat split; try done.
  - apply lookup_insert_eq.
  - intros k Hk. by apply lookup_insert_ne.
Qed.

(** ** Request construction *)

(** C8: for every context, method and URL, when
    [http.NewRequestWithContext] reports an error, [Execute] returns
    [(nil, that error)], having called no interceptor and no transport and
    leaving the world as it was; when it gives a request, [Execute] is [Do]
    on that request with the same options. *)
Theorem Execute_construction_error c (ctx : context_Context) (method url : string)
  (opts : list OptionValue) (w : W) :
  match http_NewRequestWithContext ctx method url with
  | inr err => Execute c ctx method url opts w = (w, [], Returned (None, Some err))
  | inl req => Execute c ctx method url opts w = Do c (Some req) opts w
  end.
Proof. unfold Execute. by destruct (http_NewRequestWithContext ctx method url). Qed.

(** ** Options with both capabilities *)

(** C1, on the code: [New], given one option that has both the request and
    the response capability, registers its request capability and not its
    response capability: the type switch of [New] stops at its first
    matching case. *)
Theorem New_dual_role_request_only (opt : OptionValue) ri si :
  asRequestInterceptor opt = Some ri ->
  asResponseInterceptor opt = Some si ->
  New [opt] = Returned {| client_c := new_http_Client;
                          reqInterceptors := [ri];
                          resInterceptors := [] |}.
Proof.
  intros Hreq Hres. unfold New. simpl. rewrite Hreq.
  destruct opt; simpl in *; try done.
Qed.

(** Passed to [Do] as the one call option, through a client without
    interceptors, an option with both capabilities has its request
    capability called before the transport and its response capability
    after it, each once, in every call that returns a nil error. *)
Lemma Do_dual_role_call_option c req (opt : OptionValue) ri si w w' t res :
  reqInterceptors c = [] ->
  resInterceptors c = [] ->
  asRequestInterceptor opt = Some ri ->
  asResponseInterceptor opt = Some si ->
  Do c req [opt] w = (w', t, Returned (res, None)) ->
  calls t = [CallRequest ri; CallTransport; CallResponse si].
Proof.
  intros HR HS Hreq Hres HDo. apply Do_runs in HDo.
  unfold requestCapable, responseCapable in HDo. simpl in HDo.
  rewrite HR, HS, Hreq, Hres in HDo. simpl in HDo.
  inversion HDo as [| | | | | | | t1 y raw body t2 z Hr Hbody Hs]; subst.
  rewrite calls_app. simpl. rewrite calls_app. simpl.
  by rewrite (ran_request_calls _ _ _ _ Hr), (ran_response_calls _ _ _ _ Hs).
Qed.

End Facts.

(** * The properties on concrete runs *)

(** A successful run: two client request interceptors, one call request
    interceptor, one call response interceptor and one client response
    interceptor, none returning an error. *)
Lemma Do_invocation_order_witness :
  Do test_client test_req test_opts []
  = (["close raw"; "S1"; "D1"; "transport"; "C1"; "R2"; "R1"]%string,
     [EvInterceptRequest R1 test_req (Returned (test_req, None));
      EvInterceptRequest R2 test_req (Returned (test_req, None));
      EvInterceptRequest C1 test_req (Returned (test_req, None));
      EvTransport test_req (Returned (Some test_raw, None));
      EvInterceptResponse D1 (Some test_raw) (Returned (Some test_raw, None));
      EvInterceptResponse S1 (Some test_raw) (Returned (Some test_raw, None));
      EvClose (test_body "raw" None)],
     Returned (Some test_raw, None))
  /\ calls (Do test_client test_req test_opts []).1.2
     = map CallRequest [R1; R2] ++ map CallRequest [C1] ++ [CallTransport]
       ++ map CallResponse [D1] ++ map CallResponse [S1]
  /\ threaded (HeldRequest test_req) (Do test_client test_req test_opts []).1.2
       (Some test_raw).
Proof.
  split; [reflexivity |].
  exact (Do_invocation_order test_client test_req test_opts [] _ _ _
           [R1; R2] [S1] [C1] [D1] eq_refl eq_refl eq_refl eq_refl eq_refl).
Defined.

(** A run in which the second client request interceptor returns an error:
    nothing is called after it. *)
Lemma Do_first_error_wins_witness :
  Do test_client_request_denied test_req test_opts []
  = (["R2"; "R1"]%string,
     [EvInterceptRequest R1 test_req (Returned (test_req, None))]
     ++ EvInterceptRequest R2_denies test_req (Returned (test_req, Some denied)) :: [],
     Returned (None, Some denied))
  /\ exists later,
       schedule test_client_request_denied test_opts
       = [CallRequest R1; CallRequest R2_denies] ++ later.
Proof.
  split; [reflexivity |].
  exact (proj1 (proj2
    (Do_first_error_wins test_client_request_denied test_req test_opts [] _ _ _
       [EvInterceptRequest R1 test_req (Returned (test_req, None))]
       (EvInterceptRequest R2_denies test_req (Returned (test_req, Some denied)))
       [] denied eq_refl eq_refl eq_refl))).
Defined.



(** Two runs: the client response interceptor returns the response it was
    given together with an error, and [Do] returns both; a client request
    interceptor returns an error, and [Do] returns a nil response with it. *)
Lemma Do_response_with_error_witness :
  Do test_client_response_denied test_req test_opts []
  = (["close raw"; "S1"; "D1"; "transport"; "C1"; "R2"; "R1"]%string,
     [EvInterceptRequest R1 test_req (Returned (test_req, None));
      EvInterceptRequest R2 test_req (Returned (test_req, None));
      EvInterceptRequest C1 test_req (Returned (test_req, None));
      EvTransport test_req (Returned (Some test_raw, None));
      EvInterceptResponse D1 (Some test_raw) (Returned (Some test_raw, None));
      EvInterceptResponse S1_denies (Some test_raw) (Returned (Some test_raw, Some denied));
      EvClose (test_body "raw" None)],
     Returned (Some test_raw, Some denied))
  /\ (Do test_client_response_denied test_req test_opts []).2
     = Returned (Some test_raw, Some denied)
  /\ (Do test_client_request_denied test_req test_opts []).2
     = Returned (None, Some denied).
Proof.
  split; [reflexivity |]. split.
  - refine (proj1 (Do_response_with_error test_client_response_denied test_req test_opts
                     [] _ _ _ eq_refl) S1_denies (Some test_raw) (Some test_raw) denied _).
    simpl. tauto.
  - refine (proj1 (proj2 (Do_response_with_error test_client_request_denied test_req
                            test_opts [] _ _ _ eq_refl))
              R2_denies test_req test_req denied _).
    simpl. tauto.
Defined.

(** [New] on the option [ForJSON] returns: the client is left without
    response interceptors. *)
Lemma New_dual_role_request_only_witness :
  exists ri si,
    asRequestInterceptor (ForJSON test_target) = Some ri
    /\ asResponseInterceptor (ForJSON test_target) = Some si
    /\ New (H0 := test_NetHTTP) [ForJSON test_target]
       = Returned (@Build_Client test_Platform
                     (test_transport (Some (test_response 200 "raw")) None) [ri] []).
Proof.
  eexists _, _. split; [reflexivity |]. split; [reflexivity |].
  exact (New_dual_role_request_only (H0 := test_NetHTTP) (ForJSON test_target) _ _
           eq_refl eq_refl).
Defined.

(** [Do] with the option [ForJSON] returns as its one call option, on a
    JSON response: the request capability runs before the transport, and
    the response capability, which unmarshals, after it. *)
Lemma Do_dual_role_call_option_witness :
  (Do test_client_json test_req [ForJSON test_target] []).1.1
  = ["close raw"; "unmarshal"; "transport"]%string
  /\ (Do test_client_json test_req [ForJSON test_target] []).2
     = Returned (Some test_json_response, None)
  /\ exists ri si,
       asRequestInterceptor (ForJSON test_target) = Some ri
       /\ asResponseInterceptor (ForJSON test_target) = Some si
       /\ calls (Do test_client_json test_req [ForJSON test_target] []).1.2
          = [CallRequest ri; CallTransport; CallResponse si].
Proof.
  split; [reflexivity |]. split; [reflexivity |].
  eexists _, _. split; [reflexivity |]. split; [reflexivity |].
  exact (Do_dual_role_call_option test_client_json test_req (ForJSON test_target)
           _ _ [] _ _ _ eq_refl eq_refl eq_refl eq_refl eq_refl).
Defined.

(** On concrete responses: configured with 200, the validator passes a
    200 response and fails a 404 response with an error naming 404. *)
Lemma ExpectedStatusCode_validates_witness :
  (exists i,
      asResponseInterceptor (ExpectedStatusCode [200]) = Some i
      /\ InterceptResponse i (Some (test_response 200 "raw")) []
         = ([], Returned (Some (test_response 200 "raw"), None)))
  /\ (exists i,
      asResponseInterceptor (ExpectedStatusCode [200]) = Some i
      /\ InterceptResponse i (Some (test_response 404 "raw")) []
         = ([], Returned (Some (test_response 404 "raw"),
                          Some (errorString "unexpected status code: 404")))).
Proof.
  split.
  - destruct (ExpectedStatusCode_validates [200] (test_response 200 "raw") [])
      as (i & Hi & _ & Hrun).
    exists i. split; [exact Hi | exact Hrun].
  - destruct (ExpectedStatusCode_validates [200] (test_response 404 "raw") [])
      as (i & Hi & _ & Hrun).
    exists i. split; [exact Hi | exact Hrun].
Defined.

(** The client [New] builds from [ExpectedStatusCode] with no
    status code returns an error on a 200 response, and so does a call
    given that option. *)
Lemma ExpectedStatusCode_empty_rejects_all_witness :
  New (H0 := test_NetHTTP) [ExpectedStatusCode []] = Returned test_client_rejecting
  /\ (Do test_client_rejecting test_req [] []).2
     = Returned (Some test_raw, Some (errorString "unexpected status code: 200"))
  /\ (forall res, (Do test_client_rejecting test_req [] []).2 <> Returned (res, None))
  /\ (forall res,
        (Do test_client test_req [ExpectedStatusCode []] []).2 <> Returned (res, None)).
Proof.
  split; [reflexivity |]. split; [reflexivity |].
  destruct (ExpectedStatusCode_empty_rejects_all (H := test_Platform) (H0 := test_NetHTTP))
    as (i & Hi & _ & HDo & HNew).
  split; intros res; apply HDo.
  - right. apply (HNew [ExpectedStatusCode []] test_client_rejecting eq_refl).
    simpl. tauto.
  - left. simpl. tauto.
Defined.

(** On concrete requests: with the prefix https://host, the path /a/b
    becomes https://host/a/b, and the absolute https://other/x is left as
    it is. *)
Lemma WithURLPrefix_prefixes_witness :
  (exists i rq',
      asRequestInterceptor (WithURLPrefix (H := test_Platform) "https://host") = Some i
      /\ InterceptRequest i (Some (test_request "/a/b")) []
         = ([], Returned (Some rq', None))
      /\ URL rq' = "https://host/a/b"%string)
  /\ (exists i,
      asRequestInterceptor (WithURLPrefix (H := test_Platform) "https://host") = Some i
      /\ InterceptRequest i (Some (test_request "https://other/x")) []
         = ([], Returned (Some (test_request "https://other/x"), None))).
Proof.
  split.
  - destruct (WithURLPrefix_prefixes (H := test_Platform) "https://host"
                (test_request "/a/b") []) as (i & Hi & _ & Hrel & _).
    destruct (Hrel "https://host/a/b"%string eq_refl eq_refl) as (rq' & Hrun & Hurl & _).
    exists i, rq'. split; [exact Hi |]. split; [exact Hrun | exact Hurl].
  - destruct (WithURLPrefix_prefixes (H := test_Platform) "https://host"
                (test_request "https://other/x") []) as (i & Hi & Habs & _).
    exists i. split; [exact Hi | exact (Habs eq_refl)].
Defined.

(** On a concrete request: the JSON text of the string hello, seven
    bytes, becomes the body, with content length 7 and Content-Type
    application/json; a value that does not marshal gives the marshalling
    error and the request as it was. *)
Lemma WithJSON_sets_body_witness :
  (exists i rq',
      asRequestInterceptor (WithJSON test_hello) = Some i
      /\ InterceptRequest i test_req [] = ([], Returned (Some rq', None))
      /\ ReqBody rq'
         = Some (readCloser (bytes_NewReader
                   [Byte.x22; Byte.x68; Byte.x65; Byte.x6c; Byte.x6c; Byte.x6f; Byte.x22]))
      /\ ReqHeader rq' !! "Content-Type"%string = Some ["application/json"%string]
      /\ ContentLength rq' = 7)
  /\ (exists i,
      asRequestInterceptor (WithJSON test_unsupported) = Some i
      /\ InterceptRequest i test_req []
         = ([], Returned (test_req, Some (errorString "json: unsupported type")))).
Proof.
  split.
  - destruct (WithJSON_sets_body test_hello (test_request "/a") [])
      as (i & Hi & rq' & Hrun & Hbody & _ & _ & Hct & _ & Hlen & _).
    exists i, rq'. split; [exact Hi |]. split; [exact Hrun |].
    split; [exact Hbody |]. split; [exact Hct | exact Hlen].
  - destruct (WithJSON_sets_body test_unsupported (test_request "/a") [])
      as (i & Hi & Hrun).
    exists i. split; [exact Hi | exact Hrun].
Defined.

(** On concrete inputs: a URL that does not parse makes [Execute] return
    the construction error with nothing called and nothing logged; a URL
    that parses makes it run [Do]. *)
Lemma Execute_construction_error_witness :
  Execute (H0 := test_NetHTTP) test_client tt "GET" "/a b" test_opts []
  = ([], [], Returned (None, Some (errorString "parse: invalid character in URL")))
  /\ Execute (H0 := test_NetHTTP) test_client tt "GET" "/a" test_opts []
     = Do test_client test_req test_opts [].
Proof.
  split.
  - exact (Execute_construction_error (H0 := test_NetHTTP) test_client tt
             "GET" "/a b" test_opts []).
  - exact (Execute_construction_error (H0 := test_NetHTTP) test_client tt
             "GET" "/a" test_opts []).
Defined.

(** * Further properties of the package *)

Section MoreFacts.

Context `{Platform}.
Context `{!NetHTTP}.

(** ** Further properties of [Do] *)

(** When the transport returns a non-nil error, [Do] returns the transport's
    response and error as they are; the transport is the last call made, so
    no response interceptor runs, and nothing is closed. *)
Theorem Do_transport_error c req opts w w' t out arg res e :
  Do c req opts w = (w', t, out) ->
  In (EvTransport arg (Returned (res, Some e))) t ->
  out = Returned (res, Some e)
  /\ calls t = map CallRequest (reqInterceptors c ++ requestCapable opts) ++ [CallTransport]
  /\ closes t = [].
Proof.
  intros HDo Hin. apply Do_runs in HDo.
  destruct HDo as
    [reqs1 i reqs2 t0 y x e' Hreqs Hr | reqs1 i reqs2 t0 y Hreqs Hr | t0 y res' e' Hr | t0 y Hr
    | t0 y res' Hr Hb | t0 y raw' body' ress1 i ress2 t3 z x e' Hr Hb Hress Hs
    | t0 y raw' body' ress1 i ress2 t3 z Hr Hb Hress Hs | t0 y raw' body' t3 z Hr Hb Hs];
    pose proof (ran_request_no_transport _ _ _ _ Hr) as Hq;
    pose proof (ran_request_closes _ _ _ _ Hr) as Hc;
    pose proof (ran_request_calls _ _ _ _ Hr) as Hcalls.
  - exfalso. eapply transport_absent; [| exact Hin].
    apply Forall_app. split; [done | by repeat constructor].
  - exfalso. eapply transport_absent; [| exact Hin].
    apply Forall_app. split; [done | by repeat constructor].
  - apply transport_unique in Hin as [-> [= -> ->]]; [| done | done].
    split; [done |]. rewrite calls_app, closes_app, Hc, Hcalls. done.
  - apply transport_unique in Hin as [_ [=]]; done.
  - apply transport_unique in Hin as [_ [=]]; done.
  - pose proof (ran_response_no_transport _ _ _ _ Hs) as Hq'.
    apply transport_unique in Hin as [_ [=]]; [done |].
    apply Forall_app. split; [done | by repeat constructor].
  - pose proof (ran_response_no_transport _ _ _ _ Hs) as Hq'.
    apply transport_unique in Hin as [_ [=]]; [done |].
    apply Forall_app. split; [done | by repeat constructor].
  - pose proof (ran_response_no_transport _ _ _ _ Hs) as Hq'.
    apply transport_unique in Hin as [_ [=]]; [done |].
    apply Forall_app. split; [done | by repeat constructor].
Qed.

(** Whatever way a call of [Do] ends, by a return or by a panic, the calls
    it made are an initial part of the full ordered sequence of the call:
    no interceptor is skipped, called twice or called out of order. *)
Theorem Do_calls_prefix_of_schedule c req opts w :
  exists later, schedule c opts = calls (Do c req opts w).1.2 ++ later.
Proof.
  destruct (Do c req opts w) as [[w' t] out] eqn:HDo. simpl.
  apply Do_runs in HDo. unfold schedule.
  destruct HDo as
    [reqs1 i reqs2 t0 y x e' Hreqs Hr | reqs1 i reqs2 t0 y Hreqs Hr | t0 y res' e' Hr | t0 y Hr
    | t0 y res' Hr Hb | t0 y raw' body' ress1 i ress2 t3 z x e' Hr Hb Hress Hs
    | t0 y raw' body' ress1 i ress2 t3 z Hr Hb Hress Hs | t0 y raw' body' t3 z Hr Hb Hs];
    pose proof (ran_request_calls _ _ _ _ Hr) as Hcalls;
    rewrite ?Hreqs, ?Hress, !calls_app, Hcalls; simpl;
    try (pose proof (ran_response_calls _ _ _ _ Hs) as Hcalls';
         rewrite !calls_app, Hcalls'; simpl);
    rewrite ?map_app; simpl; eexists;
    rewrite <- ?app_assoc; simpl; rewrite <- ?app_assoc; simpl;
    rewrite ?app_nil_r; reflexivity.
Qed.

(** [Do] closes at most one body in a call, and when it closes one, that is
    the last thing it does, after the transport has been called. *)
Theorem Do_close_is_last c req opts w :
  closes (Do c req opts w).1.2 = []
  \/ exists t0 body,
       (Do c req opts w).1.2 = t0 ++ [EvClose body]
       /\ closes t0 = []
       /\ In CallTransport (calls t0).
Proof.
  destruct (Do c req opts w) as [[w' t] out] eqn:HDo. simpl.
  apply Do_runs in HDo.
  destruct HDo as
    [reqs1 i reqs2 t0 y x e' Hreqs Hr | reqs1 i reqs2 t0 y Hreqs Hr | t0 y res' e' Hr | t0 y Hr
    | t0 y res' Hr Hb | t0 y raw' body' ress1 i ress2 t3 z x e' Hr Hb Hress Hs
    | t0 y raw' body' ress1 i ress2 t3 z Hr Hb Hress Hs | t0 y raw' body' t3 z Hr Hb Hs];
    pose proof (ran_request_closes _ _ _ _ Hr) as Hc;
    try (left; rewrite closes_app, Hc; done);
    pose proof (ran_response_closes _ _ _ _ Hs) as Hc'; right.
  - exists (t0 ++ EvTransport y (Returned (Some raw', None))
               :: t3 ++ [EvInterceptResponse i z (Returned (x, Some e'))]), body'.
    split; [| split].
    + rewrite <- !app_assoc. simpl. rewrite <- !app_assoc. done.
    + rewrite closes_app, Hc. simpl. rewrite closes_app, Hc'. done.
    + rewrite calls_app. apply in_or_app. right. by left.
  - exists (t0 ++ EvTransport y (Returned (Some raw', None))
               :: t3 ++ [EvInterceptResponse i z Panicked]), body'.
    split; [| split].
    + rewrite <- !app_assoc. simpl. rewrite <- !app_assoc. done.
    + rewrite closes_app, Hc. simpl. rewrite closes_app, Hc'. done.
    + rewrite calls_app. apply in_or_app. right. by left.
  - exists (t0 ++ EvTransport y (Returned (Some raw', None)) :: t3), body'.
    split; [| split].
    + rewrite <- !app_assoc. done.
    + rewrite closes_app, Hc. simpl. done.
    + rewrite calls_app. apply in_or_app. right. by left.
Qed.

(** [Do] uses its options only through their two capabilities: two option
    lists with the same request-capable members and the same
    response-capable members, in the same order, give the same call.  In
    particular options with neither capability are passed over, where
    [New] panics. *)
Theorem Do_ignores_other_options c req opts opts' w :
  requestCapable opts = requestCapable opts' ->
  responseCapable opts = responseCapable opts' ->
  Do c req opts w = Do c req opts' w.
Proof. intros Hreq Hres. rewrite !Do_pipeline. by rewrite Hreq, Hres. Qed.

(** ** [New] *)

Lemma New_range_registers opts c0 c :
  New_range opts c0 = Returned c ->
  reqInterceptors c = reqInterceptors c0 ++ requestCapable opts
  /\ resInterceptors c
     = resInterceptors c0
       ++ omap (fun opt => match asRequestInterceptor opt with
                           | Some _ => None
                           | None => asResponseInterceptor opt
                           end) opts
  /\ client_c c
     = fold_left (fun hc opt => match opt with
                                | HTTPClientOption f => f hc
                                | _ => hc
                                end) opts (client_c c0).
Proof.
  revert c0. induction opts as [| opt opts IH]; intros c0 HNew; simpl in HNew.
  - injection HNew as <-. by rewrite !app_nil_r.
  - unfold requestCapable in *.
    destruct opt as [f | ri | si | v | [ri |] [si |]]; simpl in *; try done;
      destruct (IH _ HNew) as (-> & -> & ->); simpl;
      rewrite <- ?app_assoc; done.
Qed.

(** When [New] returns a client, the client's request interceptors are the
    request-capable options in the order passed, its response interceptors
    are, in the order passed, the options that have the response capability
    and not the request capability, and its HTTP client is the default one
    after every [HTTPClientOption], applied in the order passed. *)
Theorem New_registers_in_order opts c :
  New opts = Returned c ->
  reqInterceptors c = requestCapable opts
  /\ resInterceptors c
     = omap (fun opt => match asRequestInterceptor opt with
                        | Some _ => None
                        | None => asResponseInterceptor opt
                        end) opts
  /\ client_c c
     = fold_left (fun hc opt => match opt with
                                | HTTPClientOption f => f hc
                                | _ => hc
                                end) opts new_http_Client.
Proof. intros HNew. by apply New_range_registers in HNew. Qed.



(** ** Header options *)

Section HeaderFacts.

Variable CanonicalMIMEHeaderKey : string -> string.

(** Two [WithRequestHeader] options whose names have the same canonical
    form: run one after the other, the second replaces the value of the
    first, and the request is the one the second alone gives.  Neither
    returns an error or changes the world. *)
Theorem WithRequestHeader_last_wins h1 v1 h2 v2 (rq : Request) (w : W) :
  CanonicalMIMEHeaderKey h1 = CanonicalMIMEHeaderKey h2 ->
  exists i1 i2 rq1 rq2,
    asRequestInterceptor (WithRequestHeader CanonicalMIMEHeaderKey h1 v1) = Some i1
    /\ asRequestInterceptor (WithRequestHeader CanonicalMIMEHeaderKey h2 v2) = Some i2
    /\ InterceptRequest i1 (Some rq) w = (w, Returned (Some rq1, None))
    /\ InterceptRequest i2 (Some rq1) w = (w, Returned (Some rq2, None))
    /\ InterceptRequest i2 (Some rq) w = (w, Returned (Some rq2, None))
    /\ ReqHeader rq2 !! CanonicalMIMEHeaderKey h2 = Some [v2].
Proof.
  intros Hsame. eexists _, _, _, _. split; [done |]. split; [done |].
  cbn [InterceptRequest]. split; [done |]. split; [done |].
  cbn [ReqHeader Method URL ReqBody ContentLength]. unfold Header_Set. rewrite Hsame.
  rewrite insert_insert_eq. split; [done |]. apply lookup_insert_eq.
Qed.

(** Two [WithRequestHeader] options whose names have different canonical
    forms give the same request in either order, with both headers set. *)
Theorem WithRequestHeader_commute h1 v1 h2 v2 (rq : Request) (w : W) :
  CanonicalMIMEHeaderKey h1 <> CanonicalMIMEHeaderKey h2 ->
  exists i1 i2 rq1 rq2 rq12,
    asRequestInterceptor (WithRequestHeader CanonicalMIMEHeaderKey h1 v1) = Some i1
    /\ asRequestInterceptor (WithRequestHeader CanonicalMIMEHeaderKey h2 v2) = Some i2
    /\ InterceptRequest i1 (Some rq) w = (w, Returned (Some rq1, None))
    /\ InterceptRequest i2 (Some rq) w = (w, Returned (Some rq2, None))
    /\ InterceptRequest i2 (Some rq1) w = (w, Returned (Some rq12, None))
    /\ InterceptRequest i1 (Some rq2) w = (w, Returned (Some rq12, None))
    /\ ReqHeader rq12 !! CanonicalMIMEHeaderKey h1 = Some [v1]
    /\ ReqHeader rq12 !! CanonicalMIMEHeaderKey h2 = Some [v2].
Proof.
  intros Hne. eexists _, _, _, _, _. split; [done |]. split; [done |].
  cbn [InterceptRequest]. split; [done |]. split; [done |]. split; [done |].
  cbn [ReqHeader Method URL ReqBody ContentLength]. unfold Header_Set.
  split; [| split].
  - by rewrite insert_insert_ne.
  - rewrite lookup_insert_ne; [apply lookup_insert_eq | done].
  - apply lookup_insert_eq.
Qed.

End HeaderFacts.

(** The request side of [ForJSON] adds application/json to the Accept
    header after the values the request already has there, which it keeps,
    so a request that already names what it accepts still names that
    first; it changes no other header and nothing else of the request,
    and returns no error. *)
Theorem ForJSON_adds_Accept (value : any) (rq : Request) (w : W) :
  exists i rq',
    asRequestInterceptor (ForJSON value) = Some i
    /\ InterceptRequest i (Some rq) w = (w, Returned (Some rq', None))
    /\ ReqHeader rq' !! "Accept"%string
       = Some (default [] (ReqHeader rq !! "Accept"%string) ++ ["application/json"%string])
    /\ Header_Get (ReqHeader rq') "Accept"
       = match ReqHeader rq !! "Accept"%string with
         | Some (v :: _) => v
         | _ => "application/json"%string
         end
    /\ (forall k, k <> "Accept"%string -> ReqHeader rq' !! k = ReqHeader rq !! k)
    /\ Method rq' = Method rq
    /\ URL rq' = URL rq
    /\ ReqBody rq' = ReqBody rq
    /\ ContentLength rq' = ContentLength rq.
Proof.
  eexists _, _. split; [done |]. split; [done |].
  cbn [ReqHeader Method URL ReqBody ContentLength].
  unfold Header_Get, Header_Add. rewrite lookup_insert_eq.
  split; [done |]. split.
  - by destruct (ReqHeader rq !! "Accept"%string) as [[| v vs] |].
  - split; [| done]. intros k Hk. by apply lookup_insert_ne.
Qed.

(** ** Bodies *)

(** [WithBody] on a request without a body, followed by a second [WithBody]:
    the first returns no error and leaves the world as it is; the second
    calls [Close] on the reader the first was given, when that reader has
    a [Close] of its own, and on nothing otherwise.  When that [Close]
    fails the second returns its error with the request as the first left
    it; otherwise the body reads what the second reader reads, and content
    type and content length are the second's. *)
Theorem WithBody_closes_replaced_body (r1 : Reader) ct1 len1 (r2 : Reader) ct2 len2
  (rq : Request) (w : W) :
  ReqBody rq = None ->
  exists i1 i2 rq1,
    asRequestInterceptor (WithBody r1 ct1 len1) = Some i1
    /\ asRequestInterceptor (WithBody r2 ct2 len2) = Some i2
    /\ InterceptRequest i1 (Some rq) w = (w, Returned (Some rq1, None))
    /\ forall w1,
         let closed :=
           match asReadCloser r1 with
           | Some close => close w1
           | None => (w1, None)
           end in
         match closed.2 with
         | Some cerr =>
             InterceptRequest i2 (Some rq1) w1
             = (closed.1, Returned (Some rq1, Some cerr))
         | None =>
             exists rq2 body,
               InterceptRequest i2 (Some rq1) w1
               = (closed.1, Returned (Some rq2, None))
               /\ ReqBody rq2 = Some body
               /\ rcReadAll body = ReadAll r2
               /\ ReqHeader rq2 !! "Content-Type"%string = Some [ct2]
               /\ ContentLength rq2 = len2
         end.
Proof.
  intros Hnobody. eexists _, _, _. split; [done |]. split; [done |].
  cbn [InterceptRequest withBody]. rewrite Hnobody. split; [done |].
  intros w1. cbn [ReqBody Method URL ReqHeader ContentLength].
  destruct (asReadCloser r1) as [close1 |]; cbn [Close readCloser].
  - destruct (close1 w1) as [w2 [cerr |]]; cbn [fst snd]; [done |].
    eexists _, _. split; [done |]. cbn [ReqBody ReqHeader ContentLength].
    split; [done |]. split; [by destruct (asReadCloser r2) |].
    split; [apply lookup_insert_eq | done].
  - cbn [fst snd]. eexists _, _. split; [done |].
    cbn [ReqBody ReqHeader ContentLength].
    split; [done |]. split; [by destruct (asReadCloser r2) |].
    split; [apply lookup_insert_eq | done].
Qed.

(** ** Options through [Do] and [New] *)

(** A JSON body sent and decoded in one call.  Through a client without
    interceptors, [Do] with [WithJSON value] and [ForJSON target] on a
    request without a body sends the transport the request with the
    marshalled bytes as body, their count as content length, Content-Type
    and Accept set; when the transport answers with a JSON response whose
    body reads as those same bytes, [json.Unmarshal] is run on exactly the
    marshalled bytes and the target, [Do] returns the response with what
    [json.Unmarshal] returned as error, and the response body is closed
    once, after the decoding. *)
Theorem Do_WithJSON_ForJSON_echo c (rq : Request) (value target : any) w w1 b w2 raw body w3 :
  reqInterceptors c = [] ->
  resInterceptors c = [] ->
  ReqBody rq = None ->
  json_Marshal value w = (w1, inl b) ->
  http_Client_Do (client_c c)
    (Some {| Method := Method rq;
             URL := URL rq;
             ReqHeader := Header_Add (Header_Set (ReqHeader rq) "Content-Type"
                                        "application/json")
                            "Accept" "application/json";
             ReqBody := Some (readCloser (bytes_NewReader b));
             ContentLength := Z.of_nat (length b) |}) w1
  = (w2, Returned (Some raw, None)) ->
  String.prefix "application/json" (Header_Get (ResHeader raw) "Content-Type") = true ->
  ResBody raw = Some body ->
  rcReadAll body w2 = (w3, (b, None)) ->
  (Do c (Some rq) [WithJSON value; ForJSON target] w).2
  = Returned (Some raw, (json_Unmarshal b target w3).2)
  /\ (Do c (Some rq) [WithJSON value; ForJSON target] w).1.1
     = (Close body (json_Unmarshal b target w3).1).1
  /\ closes (Do c (Some rq) [WithJSON value; ForJSON target] w).1.2 = [body].
Proof.
  intros HR HS Hnobody Hmarshal Htransport Hct Hbody Hread.
  unfold Do, run, Do_body. rewrite HR, HS.
  cbn [range_reqInterceptors range_opts_RequestInterceptor range_opts_ResponseInterceptor
       range_resInterceptors asRequestInterceptor asResponseInterceptor WithJSON ForJSON
       WithRequestInterceptorFunc InterceptRequest InterceptResponse withBody].
  unfold seq, call, pass, return_, defer_Close.
  cbn [InterceptRequest InterceptResponse].
  rewrite Hmarshal, Hnobody. cbn [bytes_NewReader asReadCloser forJSON_InterceptRequest].
  cbn [Method URL ReqHeader ReqBody ContentLength].
  rewrite Htransport. cbn iota beta. rewrite Hbody.
  unfold forJSON_InterceptResponse. rewrite Hct, Hbody, Hread. cbn [negb].
  destruct (json_Unmarshal b target w3) as [w4 [e |]];
    cbn iota beta; cbn [fst snd]; destruct (Close body w4) as [w5 ?];
    (split; [reflexivity | split; reflexivity]).
Qed.

(** [ForJSON] on a response that is not JSON.  Through a client without
    interceptors, when the transport answers the request, with Accept
    added, by a response whose Content-Type does not start with
    application/json, [Do] returns that response with an error naming the
    content type it got; the body is not read and nothing is unmarshalled
    (the world is the transport's, after [Close]), and the body is closed
    once. *)
Theorem Do_ForJSON_rejects_other_content_type c (rq : Request) (target : any)
  w w1 raw body :
  reqInterceptors c = [] ->
  resInterceptors c = [] ->
  http_Client_Do (client_c c)
    (Some {| Method := Method rq;
             URL := URL rq;
             ReqHeader := Header_Add (ReqHeader rq) "Accept" "application/json";
             ReqBody := ReqBody rq;
             ContentLength := ContentLength rq |}) w
  = (w1, Returned (Some raw, None)) ->
  ResBody raw = Some body ->
  String.prefix "application/json" (Header_Get (ResHeader raw) "Content-Type") = false ->
  (Do c (Some rq) [ForJSON target] w).2
  = Returned (Some raw,
              Some (errorString ("expected JSON response but got "
                                 +:+ Header_Get (ResHeader raw) "Content-Type")))
  /\ (Do c (Some rq) [ForJSON target] w).1.1 = (Close body w1).1
  /\ closes (Do c (Some rq) [ForJSON target] w).1.2 = [body].
Proof.
  intros HR HS Htransport Hbody Hct.
  unfold Do, run, Do_body. rewrite HR, HS.
  cbn [range_reqInterceptors range_opts_RequestInterceptor range_opts_ResponseInterceptor
       range_resInterceptors asRequestInterceptor asResponseInterceptor ForJSON
       InterceptRequest InterceptResponse].
  unfold seq, call, pass, return_, defer_Close.
  cbn [InterceptRequest InterceptResponse forJSON_InterceptRequest].
  rewrite Htransport. cbn iota beta. rewrite Hbody.
  unfold forJSON_InterceptResponse. rewrite Hct. cbn [negb]. cbn iota beta.
  destruct (Close body w1) as [w2 ?].
  split; [reflexivity | split; reflexivity].
Qed.

(** A client built with a URL prefix.  When the request [Get] builds has a
    URL that is not absolute, the client [New] makes from [WithURLPrefix]
    alone calls the transport with that request, its URL replaced by what
    [prefix + rq.URL.String()] parses to; when that text does not parse,
    [Get] returns a nil response with the parse error and the transport is
    not called. *)
Theorem Get_with_URL_prefix (prefix : string) (ctx : context_Context) (url : string)
  (rq : Request) (w : W) :
  http_NewRequestWithContext ctx "GET" url = inl rq ->
  URL_IsAbs (URL rq) = false ->
  exists c i,
    New [WithURLPrefix prefix] = Returned c
    /\ asRequestInterceptor (WithURLPrefix prefix) = Some i
    /\ match url_Parse (prefix +:+ URL_String (URL rq)) with
       | inl u =>
           let sent := Some {| Method := Method rq;
                               URL := u;
                               ReqHeader := ReqHeader rq;
                               ReqBody := ReqBody rq;
                               ContentLength := ContentLength rq |} in
           exists rest,
             (Get c ctx url [] w).1.2
             = EvInterceptRequest i (Some rq) (Returned (sent, None))
               :: EvTransport sent (http_Client_Do new_http_Client sent w).2
               :: rest
       | inr err =>
           Get c ctx url [] w
           = (w, [EvInterceptRequest i (Some rq) (Returned (Some rq, Some err))],
              Returned (None, Some err))
       end.
Proof.
  intros Hbuilt Hrel. eexists _, _. split; [done |]. split; [done |].
  unfold Get, Execute. rewrite Hbuilt. unfold Do, run, Do_body.
  cbn [reqInterceptors resInterceptors client_c app range_reqInterceptors
       range_opts_RequestInterceptor range_opts_ResponseInterceptor
       range_resInterceptors].
  unfold seq, call, pass, return_, defer_Close. cbn [InterceptRequest].
  rewrite Hrel. cbn [negb].
  destruct (url_Parse (prefix +:+ URL_String (URL rq))) as [u | err]; [| done].
  cbn zeta.
  destruct (http_Client_Do new_http_Client _ w) as [w1 [[res [e |]] |]];
    cbn iota beta; cbn [fst snd]; try (by eexists).
  destruct res as [r |]; [| by eexists].
  destruct (ResBody r) as [body |]; [| by eexists].
  destruct (Close body w1) as [w2 ?]. by eexists.
Qed.

(** A client built with expected status codes.  When the transport answers
    with a response that has a body, [Do] through the client [New] makes
    from [ExpectedStatusCode codes] alone, with no call options, calls the
    transport, then the validator, then closes the body, and returns the
    transport's response, with a nil error when its status code is one of
    [codes] and with the error naming its status code otherwise. *)
Theorem Do_with_ExpectedStatusCode (codes : list Z) req (w w1 : W) raw body :
  http_Client_Do new_http_Client req w = (w1, Returned (Some raw, None)) ->
  ResBody raw = Some body ->
  exists c i,
    New [ExpectedStatusCode codes] = Returned c
    /\ asResponseInterceptor (ExpectedStatusCode codes) = Some i
    /\ let verdict :=
         if bool_decide (StatusCode raw ∈ codes) then None
         else Some (errorString ("unexpected status code: " +:+ fmt_d (StatusCode raw))) in
       Do c req [] w
       = ((Close body w1).1,
          [EvTransport req (Returned (Some raw, None));
           EvInterceptResponse i (Some raw) (Returned (Some raw, verdict));
           EvClose body],
          Returned (Some raw, verdict)).
Proof.
  intros Htransport Hbody. eexists _, _. split; [done |]. split; [done |].
  unfold Do, run, Do_body.
  cbn [reqInterceptors resInterceptors client_c app range_reqInterceptors
       range_opts_RequestInterceptor range_opts_ResponseInterceptor
       range_resInterceptors].
  unfold seq, call, pass, return_, defer_Close. rewrite Htransport.
  cbn iota beta. rewrite Hbody. cbn [InterceptResponse].
  rewrite ExpectedStatusCode_range_spec.
  destruct (bool_decide (StatusCode raw ∈ codes)); cbn iota beta zeta;
    by destruct (Close body w1) as [w2 ?].
Qed.

(** [Post] with a JSON body.  Through a client without request
    interceptors, when the request [Post] builds has no body, [Post] with
    [WithJSON value] calls the transport with that request carrying the
    marshalled bytes as body, their count as content length and
    Content-Type application/json; when the value does not marshal, [Post]
    returns a nil response with the marshalling error and the transport is
    not called. *)
Theorem Post_sends_JSON_body c (ctx : context_Context) (url : string) (value : any)
  (rq : Request) (w : W) :
  reqInterceptors c = [] ->
  http_NewRequestWithContext ctx "POST" url = inl rq ->
  ReqBody rq = None ->
  exists i,
    asRequestInterceptor (WithJSON value) = Some i
    /\ match json_Marshal value w with
       | (w1, inl b) =>
           let sent := Some {| Method := Method rq;
                               URL := URL rq;
                               ReqHeader := Header_Set (ReqHeader rq) "Content-Type"
                                              "application/json";
                               ReqBody := Some (readCloser (bytes_NewReader b));
                               ContentLength := Z.of_nat (length b) |} in
           exists rest,
             (Post c ctx url [WithJSON value] w).1.2
             = EvInterceptRequest i (Some rq) (Returned (sent, None))
               :: EvTransport sent (http_Client_Do (client_c c) sent w1).2
               :: rest
       | (w1, inr err) =>
           Post c ctx url [WithJSON value] w
           = (w1, [EvInterceptRequest i (Some rq) (Returned (Some rq, Some err))],
              Returned (None, Some err))
       end.
Proof.
  intros HR Hbuilt Hnobody. eexists. split; [done |].
  unfold Post, Execute. rewrite Hbuilt. unfold Do, run, Do_body. rewrite HR.
  cbn [range_reqInterceptors range_opts_RequestInterceptor asRequestInterceptor
       WithJSON WithRequestInterceptorFunc].
  unfold seq, call, pass, return_. cbn [InterceptRequest withBody].
  destruct (json_Marshal value w) as [w1 [b | err]]; [| done].
  rewrite Hnobody. cbn [bytes_NewReader asReadCloser]. cbn zeta.
  destruct (http_Client_Do (client_c c) _ w1) as [w2 [[res [e |]] |]];
    cbn iota beta; cbn [fst snd]; try (by eexists).
  destruct res as [r |]; [| by eexists].
  destruct (ResBody r) as [body |]; [| by eexists].
  unfold defer_Close.
  cbn [range_opts_ResponseInterceptor asResponseInterceptor WithJSON
       WithRequestInterceptorFunc].
  unfold pass. cbn iota beta.
  destruct (range_resInterceptors (resInterceptors c) (Some r) w2) as [[w3 t3] [res3 | |]];
    cbn iota beta; destruct (Close body w3) as [w4 ?]; by eexists.
Qed.

End MoreFacts.

(** * The further properties on concrete runs *)

(** A run in which the transport returns a response and an error: the call
    option's request interceptor and the transport are called, nothing
    else. *)
Lemma Do_transport_error_witness :
  Do test_client_transport_error test_req test_opts []
  = (["transport"; "C1"]%string,
     [EvInterceptRequest C1 test_req (Returned (test_req, None));
      EvTransport test_req (Returned (Some test_raw, Some redirects))],
     Returned (Some test_raw, Some redirects))
  /\ calls (Do test_client_transport_error test_req test_opts []).1.2
     = map CallRequest ([] ++ [C1]) ++ [CallTransport]
  /\ closes (Do test_client_transport_error test_req test_opts []).1.2 = [].
Proof.
  split; [reflexivity |].
  refine (proj2 (Do_transport_error test_client_transport_error test_req test_opts []
                   _ _ _ test_req (Some test_raw) redirects eq_refl _)).
  simpl. tauto.
Defined.

(** Options without a capability, before and after the others, change
    nothing of a call. *)
Lemma Do_ignores_other_options_witness :
  Do test_client test_req
    (HTTPClientOption (fun hc => hc) :: test_opts ++ [otherOption None None]) []
  = Do test_client test_req test_opts [].
Proof.
  exact (Do_ignores_other_options test_client test_req
           (HTTPClientOption (fun hc => hc) :: test_opts ++ [otherOption None None])
           test_opts [] eq_refl eq_refl).
Defined.

(** [New] on a response option, a transport option, a request option and
    the option of [ForJSON], in that order. *)
Lemma New_registers_in_order_witness :
  exists c,
    New (H0 := test_NetHTTP)
      [ResponseInterceptorOption S1;
       HTTPClientOption (fun _ => test_transport None (Some redirects));
       RequestInterceptorOption R1;
       ForJSON test_target] = Returned c
    /\ reqInterceptors c
       = [R1; RequestInterceptorFunc forJSON_InterceptRequest]
    /\ resInterceptors c = [S1]
    /\ client_c c = test_transport None (Some redirects).
Proof.
  eexists. split; [reflexivity |].
  exact (New_registers_in_order (H0 := test_NetHTTP)
           [ResponseInterceptorOption S1;
            HTTPClientOption (fun _ => test_transport None (Some redirects));
            RequestInterceptorOption R1;
            ForJSON test_target] _ eq_refl).
Defined.


(** The same header under two spellings: the second value replaces the
    first. *)
Lemma WithRequestHeader_last_wins_witness :
  exists i1 i2 rq1 rq2,
    asRequestInterceptor
      (WithRequestHeader test_CanonicalMIMEHeaderKey "user-agent" "one") = Some i1
    /\ asRequestInterceptor
         (WithRequestHeader test_CanonicalMIMEHeaderKey "User-Agent" "two") = Some i2
    /\ InterceptRequest i1 (Some (test_request "/a")) [] = ([], Returned (Some rq1, None))
    /\ InterceptRequest i2 (Some rq1) [] = ([], Returned (Some rq2, None))
    /\ ReqHeader rq2 !! "User-Agent"%string = Some ["two"%string].
Proof.
  destruct (WithRequestHeader_last_wins (H := test_Platform) test_CanonicalMIMEHeaderKey
              "user-agent" "one" "User-Agent" "two" (test_request "/a") [] eq_refl)
    as (i1 & i2 & rq1 & rq2 & H1 & H2 & Hrun1 & Hrun2 & _ & Hset).
  exists i1, i2, rq1, rq2. repeat split; assumption.
Defined.

(** Two different headers, set in either order. *)
Lemma WithRequestHeader_commute_witness :
  exists i1 i2 rq1 rq2 rq12,
    asRequestInterceptor
      (WithRequestHeader test_CanonicalMIMEHeaderKey "user-agent" "one") = Some i1
    /\ asRequestInterceptor
         (WithRequestHeader test_CanonicalMIMEHeaderKey "Accept" "text/plain") = Some i2
    /\ InterceptRequest i1 (Some (test_request "/a")) [] = ([], Returned (Some rq1, None))
    /\ InterceptRequest i2 (Some (test_request "/a")) [] = ([], Returned (Some rq2, None))
    /\ InterceptRequest i2 (Some rq1) [] = ([], Returned (Some rq12, None))
    /\ InterceptRequest i1 (Some rq2) [] = ([], Returned (Some rq12, None))
    /\ ReqHeader rq12 !! "User-Agent"%string = Some ["one"%string]
    /\ ReqHeader rq12 !! "Accept"%string = Some ["text/plain"%string].
Proof.
  assert (Hne : test_CanonicalMIMEHeaderKey "user-agent"
                <> test_CanonicalMIMEHeaderKey "Accept") by discriminate.
  exact (WithRequestHeader_commute (H := test_Platform) test_CanonicalMIMEHeaderKey
           "user-agent" "one" "Accept" "text/plain" (test_request "/a") [] Hne).
Defined.

(** A reader with a [Close] of its own given as body, then replaced by a
    reader of bytes: the first reader is closed. *)
Lemma WithBody_closes_replaced_body_witness :
  exists i1 i2 rq1 rq2,
    asRequestInterceptor (WithBody (test_reader "r1") "text/plain" 0) = Some i1
    /\ asRequestInterceptor
         (WithBody (bytes_NewReader test_hello_bytes) "application/json" 7) = Some i2
    /\ InterceptRequest i1 (Some (test_request "/a")) [] = ([], Returned (Some rq1, None))
    /\ InterceptRequest i2 (Some rq1) []
       = (["close r1"%string], Returned (Some rq2, None))
    /\ ReqHeader rq2 !! "Content-Type"%string = Some ["application/json"%string]
    /\ ContentLength rq2 = 7.
Proof.
  destruct (WithBody_closes_replaced_body (test_reader "r1") "text/plain" 0
              (bytes_NewReader test_hello_bytes) "application/json" 7
              (test_request "/a") [] eq_refl)
    as (i1 & i2 & rq1 & H1 & H2 & Hrun1 & Hrun2).
  destruct (Hrun2 []) as (rq2 & body & Hrun & _ & _ & Hct & Hlen).
  exists i1, i2, rq1, rq2. repeat split; assumption.
Defined.

(** The JSON text of the string hello sent through a transport that echoes
    the request body: the decoder is run on the echoed bytes, and the log
    shows transport, read, unmarshal, close. *)
Lemma Do_WithJSON_ForJSON_echo_witness :
  (Do test_client_echo test_req [WithJSON test_hello; ForJSON test_target] []).2
  = Returned (Some (test_echo_response test_hello_bytes), None)
  /\ (Do test_client_echo test_req [WithJSON test_hello; ForJSON test_target] []).1.1
     = ["close raw"; "unmarshal"; "read"; "transport"]%string
  /\ closes (Do test_client_echo test_req [WithJSON test_hello; ForJSON test_target] []).1.2
     = option_list (ResBody (test_echo_response test_hello_bytes)).
Proof.
  exact (Do_WithJSON_ForJSON_echo test_client_echo (test_request "/a") test_hello
           test_target [] [] test_hello_bytes ["transport"%string]
           (test_echo_response test_hello_bytes) _ ["read"; "transport"]%string
           eq_refl eq_refl eq_refl eq_refl eq_refl eq_refl eq_refl eq_refl).
Defined.

(** [ForJSON] on a response without a content type: the error names the
    empty content type, and the log shows no read and no unmarshal. *)
Lemma Do_ForJSON_rejects_other_content_type_witness :
  (Do test_client_plain test_req [ForJSON test_target] []).2
  = Returned (Some test_raw, Some (errorString "expected JSON response but got "))
  /\ (Do test_client_plain test_req [ForJSON test_target] []).1.1
     = ["close raw"; "transport"]%string
  /\ closes (Do test_client_plain test_req [ForJSON test_target] []).1.2
     = [test_body "raw" None].
Proof.
  exact (Do_ForJSON_rejects_other_content_type test_client_plain (test_request "/a")
           test_target [] ["transport"%string] test_raw (test_body "raw" None)
           eq_refl eq_refl eq_refl eq_refl eq_refl).
Defined.

(** The scenario of the package's example: a client with the prefix
    https://host asked for /a calls the transport for https://host/a. *)
Lemma Get_with_URL_prefix_witness :
  exists c i rest,
    New (H0 := test_NetHTTP) [WithURLPrefix "https://host"] = Returned c
    /\ (Get (H0 := test_NetHTTP) c tt "/a" [] []).1.2
       = EvInterceptRequest i test_req
           (Returned (Some (test_request "https://host/a"), None))
         :: EvTransport (Some (test_request "https://host/a"))
              (Returned (Some test_raw, None))
         :: rest.
Proof.
  destruct (Get_with_URL_prefix (H0 := test_NetHTTP) "https://host" tt "/a"
              (test_request "/a") [] eq_refl eq_refl)
    as (c & i & HNew & _ & rest & Hrun).
  exists c, i, rest. split; assumption.
Defined.

(** The scenario of a client expecting 204 against a transport answering
    200: the error names 200, and the body is closed. *)
Lemma Do_with_ExpectedStatusCode_witness :
  exists c i,
    New (H0 := test_NetHTTP) [ExpectedStatusCode [204]] = Returned c
    /\ Do c test_req [] []
       = (["close raw"; "transport"]%string,
          [EvTransport test_req (Returned (Some test_raw, None));
           EvInterceptResponse i (Some test_raw)
             (Returned (Some test_raw, Some (errorString "unexpected status code: 200")));
           EvClose (test_body "raw" None)],
          Returned (Some test_raw, Some (errorString "unexpected status code: 200"))).
Proof.
  destruct (Do_with_ExpectedStatusCode (H0 := test_NetHTTP) [204] test_req []
              ["transport"%string] test_raw (test_body "raw" None) eq_refl eq_refl)
    as (c & i & HNew & _ & HDo).
  exists c, i. split; assumption.
Defined.

(** [Post] with the JSON text of the string hello: the transport is called
    with a request whose body is those seven bytes. *)
Lemma Post_sends_JSON_body_witness :
  exists i rest,
    (Post (H0 := test_NetHTTP) test_client_plain tt "/a" [WithJSON test_hello] []).1.2
    = EvInterceptRequest i (Some (@Build_Request test_Platform "POST" "/a" ∅ None 0))
        (Returned (Some (@Build_Request test_Platform "POST" "/a"
                           (Header_Set ∅ "Content-Type" "application/json")
                           (Some (readCloser (bytes_NewReader test_hello_bytes))) 7),
                   None))
      :: EvTransport (Some (@Build_Request test_Platform "POST" "/a"
                              (Header_Set ∅ "Content-Type" "application/json")
                              (Some (readCloser (bytes_NewReader test_hello_bytes))) 7))
           (Returned (Some test_raw, None))
      :: rest.
Proof.
  destruct (Post_sends_JSON_body (H0 := test_NetHTTP) test_client_plain tt "/a"
              test_hello (@Build_Request test_Platform "POST" "/a" ∅ None 0) []
              eq_refl eq_refl eq_refl)
    as (i & _ & rest & Hrun).
  exists i, rest. exact Hrun.
Defined.
